(** * HTTP Storm (storm.py): a shallow embedding and its checked properties

    The embedding follows [src/storm.py] function by function.

    - Python [int] is [Z]; [dict] is stdpp's [gmap]; [list] is [list].
    - [time.time()] readings and sleep lengths are integer microseconds
      ([Z]); the properties below depend on the order of the clock reads,
      not on float rounding.  The numbers of the final report are
      rationals ([Q]): the float arithmetic of the report without its
      rounding, below the range where a float overflows.
    - Every source of non-determinism of one request attempt (the calls
      into [random], the length of a sleep, what the HTTP layer answers) is
      read from an [oracle], so every function is executable.
    - An exception is a value; a computation that may raise after it has
      already written to [self.stats] returns the written state together
      with the exception, as Python does.
    - The threads and tasks of a run are interleaved by a schedule of
      events.  A block under [self.lock] is one atomic step.  A thread
      that waits on a timer goes on when the schedule wakes it, at the
      time it waits for or later.
    - [stats_monitor] and the progress line of [worker_thread] only print
      (the monitor also appends to [rps_history], which nothing reads);
      they are left out. *)

From Stdlib Require Import Ascii String QArith ZArith Lia.
From stdpp Require Import gmap strings list fin_maps pretty sorting.

Local Open Scope Z_scope.

(** ** Python primitives *)

(** An instance of [Exception]: [type(e).__name__], [str(e)], and whether
    [isinstance(e, requests.exceptions.Timeout)]. *)
Record exn := {
  exn_name : string;
  exn_str : string;
  exn_requests_timeout : bool
}.

(** [random.choice] on an empty sequence.  The message text depends on the
    interpreter version; nothing below reads it. *)
Definition IndexError : exn :=
  {| exn_name := "IndexError";
     exn_str := "Cannot choose from an empty sequence";
     exn_requests_timeout := false |}.

(** Reading the local [response] when no branch has bound it. *)
Definition UnboundLocalError : exn :=
  {| exn_name := "UnboundLocalError";
     exn_str := "local variable 'response' referenced before assignment";
     exn_requests_timeout := false |}.

Inductive res (A : Type) : Type :=
| Ok (a : A)
| Raise (e : exn).
Arguments Ok {A} a.
Arguments Raise {A} e.

Definition res_bind {A B} (c : res A) (k : A -> res B) : res B :=
  match c with
  | Ok a => k a
  | Raise e => Raise e
  end.

Notation "'try!' x ':=' c 'in' k" := (res_bind c (fun x => k))
  (at level 10, x name, c at level 100, k at level 200).

(** [random.choice(seq)]: the oracle's number [r] picks the index. *)
Definition choice {A} (seq : list A) (r : nat) : res A :=
  match seq !! (r mod length seq)%nat with
  | Some x => Ok x
  | None => Raise IndexError
  end.

(** [random.randint(1, 255)]. *)
Definition randint_1_255 (r : nat) : Z := 1 + Z.of_nat (r mod 255).

(** [random.uniform(lo, hi)] on the microsecond grid. *)
Definition uniform (lo hi : Z) (r : nat) : Z := lo + Z.of_nat r mod (hi - lo + 1).

(** [x < y] on the floats drawn by [random.random()]. *)
Definition Qltb (x y : Q) : bool := negb (Qle_bool y x).

Definition upper_ascii (c : ascii) : ascii :=
  let n := nat_of_ascii c in
  if Nat.leb 97 n && Nat.leb n 122 then ascii_of_nat (n - 32) else c.

(** The byte [c] is [n]. *)
Definition is_byte (c : ascii) (n : nat) : bool := Nat.eqb (nat_of_ascii c) n.

(** The upper case of the ligatures U+FB00 to U+FB06, by the last byte of
    their UTF-8 form. *)
Definition upper_ligature (c : ascii) : option string :=
  if is_byte c 128 then Some "FF"
  else if is_byte c 129 then Some "FI"
  else if is_byte c 130 then Some "FL"
  else if is_byte c 131 then Some "FFI"
  else if is_byte c 132 then Some "FFL"
  else if is_byte c 133 then Some "ST"
  else if is_byte c 134 then Some "ST"
  else None.

(** [str.upper()].  A string is held as its UTF-8 bytes.  An ASCII letter
    goes to its capital.  The characters outside ASCII whose upper case is
    made of ASCII letters go to it: the sharp s (U+00DF) to SS, the
    dotless i (U+0131) to I, the long s (U+017F) to S, and the ligatures
    U+FB00 to U+FB06.  Any other character outside ASCII is kept as it is:
    its upper case is outside ASCII too, and the result is only compared
    with ASCII words. *)
Fixpoint upper (s : string) : string :=
  match s with
  | EmptyString => EmptyString
  | String c s1 =>
      let plain := String (upper_ascii c) (upper s1) in
      match s1 with
      | EmptyString => plain
      | String d s2 =>
          if is_byte c 195 && is_byte d 159 then
            String "S" (String "S" (upper s2))
          else if is_byte c 196 && is_byte d 177 then String "I" (upper s2)
          else if is_byte c 197 && is_byte d 191 then String "S" (upper s2)
          else if is_byte c 239 && is_byte d 172 then
            match s2 with
            | EmptyString => plain
            | String e s3 =>
                match upper_ligature e with
                | Some u => u ++ upper s3
                | None => plain
                end
            end
          else plain
      end
  end.

(** [len(s)]: the number of characters of [s], that is the bytes of its
    UTF-8 form that are not continuation bytes. *)
Fixpoint len_str (s : string) : nat :=
  match s with
  | EmptyString => 0
  | String c s' =>
      let n := nat_of_ascii c in
      (if Nat.leb 128 n && Nat.leb n 191 then 0 else 1) + len_str s'
  end.

(** [str(n)] for an [int]. *)
Definition str (n : Z) : string := pretty n.

(** An entry of [self.payloads].  A text payload is itself; any other JSON
    value is known by its truth value, its [str()] and its [json.dumps()]. *)
Inductive payload : Type :=
| PStr (s : string)
| PJson (truthy : bool) (repr : string) (dumps : string).

(** [if payload:] where [payload] may be [None]. *)
Definition payload_truthy (p : option payload) : bool :=
  match p with
  | None => false
  | Some (PStr s) => negb (String.eqb s "")
  | Some (PJson t _ _) => t
  end.

(** [len(str(payload))]; only evaluated on a truthy payload. *)
Definition payload_str_len (p : option payload) : Z :=
  match p with
  | None => 4
  | Some (PStr s) => Z.of_nat (len_str s)
  | Some (PJson _ r _) => Z.of_nat (len_str r)
  end.

(** [payload if isinstance(payload, str) else json.dumps(payload)]. *)
Definition payload_data (p : option payload) : string :=
  match p with
  | None => "null"
  | Some (PStr s) => s
  | Some (PJson _ _ d) => d
  end.

(** ** The object state *)

Record Stats := {
  total_requests : Z;
  successful : Z;
  failed : Z;
  timeouts : Z;
  status_codes : gmap string Z;
  response_times : list Z;
  errors : gmap string Z;
  bytes_sent : Z;
  bytes_received : Z;
  start_time : Z;
  rps_history : list Q
}.

Record HTTPStorm := {
  url : string;
  duration : Z;
  requests : Z;
  threads : Z;
  rps : Z;
  method : string;
  headers : gmap string string;
  payloads : list payload;
  user_agents : list string;
  proxies : list string;
  stealth : bool;
  random_delay : bool;
  verify_ssl : bool;
  timeout : Q;
  stats : Stats;
  running : bool
}.

Definition initial_stats : Stats :=
  {| total_requests := 0; successful := 0; failed := 0; timeouts := 0;
     status_codes := ∅; response_times := []; errors := ∅;
     bytes_sent := 0; bytes_received := 0; start_time := 0;
     rps_history := [] |}.

Definition with_stats (st : Stats) (self : HTTPStorm) : HTTPStorm :=
  {| url := url self; duration := duration self; requests := requests self;
     threads := threads self; rps := rps self; method := method self;
     headers := headers self; payloads := payloads self;
     user_agents := user_agents self; proxies := proxies self;
     stealth := stealth self; random_delay := random_delay self;
     verify_ssl := verify_ssl self; timeout := timeout self;
     stats := st; running := running self |}.

Definition with_running (b : bool) (self : HTTPStorm) : HTTPStorm :=
  {| url := url self; duration := duration self; requests := requests self;
     threads := threads self; rps := rps self; method := method self;
     headers := headers self; payloads := payloads self;
     user_agents := user_agents self; proxies := proxies self;
     stealth := stealth self; random_delay := random_delay self;
     verify_ssl := verify_ssl self; timeout := timeout self;
     stats := stats self; running := b |}.


(** ** The configuration mapping and [HTTPStorm.__init__]

    The [config] dictionary, key by key: [None] is an absent key, [Some v]
    a key bound to a value of the type the program uses it at. *)
Record ConfigMap := {
  cm_url : option string;
  cm_duration : option Z;
  cm_requests : option Z;
  cm_threads : option Z;
  cm_rps : option Z;
  cm_method : option string;
  cm_headers : option (gmap string string);
  cm_payloads : option (list payload);
  cm_user_agents : option (list string);
  cm_proxies : option (list string);
  cm_stealth : option bool;
  cm_random_delay : option bool;
  cm_verify_ssl : option bool;
  cm_timeout : option Q
}.

Definition KeyError (k : string) : exn :=
  {| exn_name := "KeyError"; exn_str := k; exn_requests_timeout := false |}.

(** [config[k]]. *)
Definition subscript {A} (k : string) (v : option A) : res A :=
  match v with
  | Some a => Ok a
  | None => Raise (KeyError k)
  end.

(** [config.get(k, d)]. *)
Definition get {A} (v : option A) (d : A) : A := default d v.

Definition init (config : ConfigMap) : res HTTPStorm :=
  try! c_url := subscript "url" (cm_url config) in
  try! c_duration := subscript "duration" (cm_duration config) in
  try! c_threads := subscript "threads" (cm_threads config) in
  try! c_rps := subscript "rps" (cm_rps config) in
  try! c_method := subscript "method" (cm_method config) in
  try! c_headers := subscript "headers" (cm_headers config) in
  try! c_payloads := subscript "payloads" (cm_payloads config) in
  try! c_user_agents := subscript "user_agents" (cm_user_agents config) in
  try! c_proxies := subscript "proxies" (cm_proxies config) in
  Ok {| url := c_url;
        duration := c_duration;
        requests := get (cm_requests config) 0;
        threads := c_threads;
        rps := c_rps;
        method := c_method;
        headers := c_headers;
        payloads := c_payloads;
        user_agents := c_user_agents;
        proxies := c_proxies;
        stealth := get (cm_stealth config) false;
        random_delay := get (cm_random_delay config) false;
        verify_ssl := get (cm_verify_ssl config) false;
        timeout := get (cm_timeout config) (10 # 1)%Q;
        stats := initial_stats;
        running := true |}.

(** ** Updates of [self.stats], one per statement of the source *)

Definition incr_total (st : Stats) : Stats :=
  {| total_requests := total_requests st + 1; successful := successful st;
     failed := failed st; timeouts := timeouts st;
     status_codes := status_codes st; response_times := response_times st;
     errors := errors st; bytes_sent := bytes_sent st;
     bytes_received := bytes_received st; start_time := start_time st;
     rps_history := rps_history st |}.

Definition incr_successful (st : Stats) : Stats :=
  {| total_requests := total_requests st; successful := successful st + 1;
     failed := failed st; timeouts := timeouts st;
     status_codes := status_codes st; response_times := response_times st;
     errors := errors st; bytes_sent := bytes_sent st;
     bytes_received := bytes_received st; start_time := start_time st;
     rps_history := rps_history st |}.

Definition incr_failed (st : Stats) : Stats :=
  {| total_requests := total_requests st; successful := successful st;
     failed := failed st + 1; timeouts := timeouts st;
     status_codes := status_codes st; response_times := response_times st;
     errors := errors st; bytes_sent := bytes_sent st;
     bytes_received := bytes_received st; start_time := start_time st;
     rps_history := rps_history st |}.

Definition incr_timeouts (st : Stats) : Stats :=
  {| total_requests := total_requests st; successful := successful st;
     failed := failed st; timeouts := timeouts st + 1;
     status_codes := status_codes st; response_times := response_times st;
     errors := errors st; bytes_sent := bytes_sent st;
     bytes_received := bytes_received st; start_time := start_time st;
     rps_history := rps_history st |}.

(** [d[k] = d.get(k, 0) + 1]. *)
Definition count_key (k : string) (d : gmap string Z) : gmap string Z :=
  <[k := default 0 (d !! k) + 1]> d.

Definition count_status (k : string) (st : Stats) : Stats :=
  {| total_requests := total_requests st; successful := successful st;
     failed := failed st; timeouts := timeouts st;
     status_codes := count_key k (status_codes st);
     response_times := response_times st;
     errors := errors st; bytes_sent := bytes_sent st;
     bytes_received := bytes_received st; start_time := start_time st;
     rps_history := rps_history st |}.

Definition count_error (k : string) (st : Stats) : Stats :=
  {| total_requests := total_requests st; successful := successful st;
     failed := failed st; timeouts := timeouts st;
     status_codes := status_codes st; response_times := response_times st;
     errors := count_key k (errors st); bytes_sent := bytes_sent st;
     bytes_received := bytes_received st; start_time := start_time st;
     rps_history := rps_history st |}.

Definition append_response_time (t : Z) (st : Stats) : Stats :=
  {| total_requests := total_requests st; successful := successful st;
     failed := failed st; timeouts := timeouts st;
     status_codes := status_codes st;
     response_times := response_times st ++ [t];
     errors := errors st; bytes_sent := bytes_sent st;
     bytes_received := bytes_received st; start_time := start_time st;
     rps_history := rps_history st |}.

Definition add_bytes_sent (n : Z) (st : Stats) : Stats :=
  {| total_requests := total_requests st; successful := successful st;
     failed := failed st; timeouts := timeouts st;
     status_codes := status_codes st; response_times := response_times st;
     errors := errors st; bytes_sent := bytes_sent st + n;
     bytes_received := bytes_received st; start_time := start_time st;
     rps_history := rps_history st |}.

Definition add_bytes_received (n : Z) (st : Stats) : Stats :=
  {| total_requests := total_requests st; successful := successful st;
     failed := failed st; timeouts := timeouts st;
     status_codes := status_codes st; response_times := response_times st;
     errors := errors st; bytes_sent := bytes_sent st;
     bytes_received := bytes_received st + n; start_time := start_time st;
     rps_history := rps_history st |}.

Definition set_start_time (t : Z) (st : Stats) : Stats :=
  {| total_requests := total_requests st; successful := successful st;
     failed := failed st; timeouts := timeouts st;
     status_codes := status_codes st; response_times := response_times st;
     errors := errors st; bytes_sent := bytes_sent st;
     bytes_received := bytes_received st; start_time := t;
     rps_history := rps_history st |}.

(** ** Randomness and the HTTP layer *)

(** What the calls into [random] return during one attempt. *)
Record draws := {
  d_user_agent : nat;
  d_accept : nat;
  d_language : nat;
  d_connection : nat;
  d_cache : nat;
  d_forwarded : Q;
  d_forwarded_ip : nat * nat * nat * nat;
  d_real : Q;
  d_real_ip : nat * nat * nat * nat;
  d_dnt : Q;
  d_payload : nat;
  d_proxy : nat;
  d_delay : nat
}.

(** What the HTTP layer answers to one call. *)
Inductive exchange : Type :=
| Responded (status : Z) (content_len : nat)
| Failed (e : exn).

Record oracle := {
  o_draws : draws;
  o_overslept : N;
  o_exchange : exchange
}.

(** One call into the HTTP layer, with the keyword arguments it was given
    ([None]: argument not passed, or passed as [None]) and the clock value
    at which it was made. *)
Record request := {
  rq_verb : string;
  rq_url : string;
  rq_headers : gmap string string;
  rq_data : option string;
  rq_proxies : option string;
  rq_timeout : Q;
  rq_verify : option bool;
  rq_at : Z
}.

(** The f-string of four [random.randint(1,255)] calls. *)
Definition spoofed_ip (r : nat * nat * nat * nat) : string :=
  let '(a, b, c, d) := r in
  str (randint_1_255 a) +:+ "." +:+ str (randint_1_255 b) +:+ "." +:+
  str (randint_1_255 c) +:+ "." +:+ str (randint_1_255 d).

Definition accept_options : list string :=
  ["text/html,application/xhtml+xml,application/xml;q=0.9,*/*;q=0.8";
   "application/json,text/plain,*/*";
   "*/*"].

Definition language_options : list string :=
  ["en-US,en;q=0.9"; "es-ES,es;q=0.9"; "fr-FR,fr;q=0.9";
   "de-DE,de;q=0.9"; "zh-CN,zh;q=0.9"].

(** The stealth block of [get_random_headers] (lines 80-86). *)
Definition stealth_headers (d : draws) (h : gmap string string)
  : gmap string string :=
  let h := if Qltb (d_forwarded d) (3 # 10)
           then <["X-Forwarded-For" := spoofed_ip (d_forwarded_ip d)]> h
           else h in
  let h := if Qltb (d_real d) (2 # 10)
           then <["X-Real-IP" := spoofed_ip (d_real_ip d)]> h
           else h in
  if Qltb (d_dnt d) (4 # 10) then <["DNT" := "1"]> h else h.

Definition get_random_headers (self : HTTPStorm) (d : draws)
  : res (gmap string string) :=
  try! ua := choice (user_agents self) (d_user_agent d) in
  try! accept := choice accept_options (d_accept d) in
  try! language := choice language_options (d_language d) in
  try! connection := choice ["keep-alive"; "close"] (d_connection d) in
  try! cache := choice ["no-cache"; "max-age=0"; "no-store"] (d_cache d) in
  let base_headers : gmap string string :=
    <["Cache-Control" := cache]>
      (<["Connection" := connection]>
        (<["Accept-Encoding" := "gzip, deflate, br"]>
          (<["Accept-Language" := language]>
            (<["Accept" := accept]>
              (<["User-Agent" := ua]> ∅))))) in
  (* if self.headers: base_headers.update(self.headers) *)
  let base_headers :=
    if bool_decide (headers self = ∅) then base_headers
    else headers self ∪ base_headers in
  let base_headers :=
    if stealth self then stealth_headers d base_headers else base_headers in
  Ok base_headers.

Definition get_random_payload (self : HTTPStorm) (d : draws)
  : res (option payload) :=
  match payloads self with
  | [] => Ok None
  | _ => try! p := choice (payloads self) (d_payload d) in Ok (Some p)
  end.

(** ** [make_request] *)

(** The value [make_request] returns: [None], the dictionary of a response,
    [{'error': 'timeout'}], or [{'error': str(e)}]. *)
Inductive ret : Type :=
| RetNone
| RetResponse (status : Z) (time : Z) (size : Z)
| RetTimeout
| RetError (msg : string).

(** The locals of [make_request] when it reaches the HTTP layer.
    [c_request] is the call made there; it is [None] when
    [self.method.upper()] is neither ['GET'] nor ['POST'], where no branch
    of lines 112-128 runs and [response] stays unbound. *)
Record call := {
  c_payload : option payload;
  c_start_time : Z;
  c_request : option request
}.

(** [{'http': proxy, 'https': proxy} if proxy else None]. *)
Definition proxies_arg (proxy : option string) : option string :=
  match proxy with
  | Some p => if String.eqb p "" then None else Some p
  | None => None
  end.

(** Lines 102-128, up to the call of [session.get] / [session.post];
    [now] is the clock when the attempt starts. *)
Definition make_request_enter (self : HTTPStorm) (now : Z) (o : oracle)
  : res call :=
  let d := o_draws o in
  try! hdrs := get_random_headers self d in
  try! pl := get_random_payload self d in
  try! proxy := match proxies self with
                | [] => Ok None
                | _ => try! p := choice (proxies self) (d_proxy d) in Ok (Some p)
                end in
  (* if self.random_delay: time.sleep(random.uniform(0.01, 0.5)) *)
  let slept := if random_delay self
               then uniform 10000 500000 (d_delay d) + Z.of_N (o_overslept o)
               else 0 in
  (* start_time = time.time() *)
  let start := now + slept in
  let verb := upper (method self) in
  Ok {| c_payload := pl;
        c_start_time := start;
        c_request :=
          if String.eqb verb "GET" then
            Some {| rq_verb := "GET"; rq_url := url self; rq_headers := hdrs;
                    rq_data := None; rq_proxies := proxies_arg proxy;
                    rq_timeout := timeout self;
                    rq_verify := Some (verify_ssl self); rq_at := start |}
          else if String.eqb verb "POST" then
            Some {| rq_verb := "POST"; rq_url := url self; rq_headers := hdrs;
                    rq_data := Some (payload_data pl);
                    rq_proxies := proxies_arg proxy;
                    rq_timeout := timeout self;
                    rq_verify := Some (verify_ssl self); rq_at := start |}
          else None |}.

(** The locked block of lines 132-145.  [response] is [None] when the local
    is unbound: the block then raises at line 135, after lines 133-134 have
    run. *)
Definition record_response (st : Stats) (response_time : Z)
    (response : option (Z * nat)) (pl : option payload) : Stats * res ret :=
  let st := incr_total st in
  let st := append_response_time response_time st in
  match response with
  | None => (st, Raise UnboundLocalError)
  | Some (status_code, content_len) =>
      let st := add_bytes_received (Z.of_nat content_len) st in
      let st := if payload_truthy pl
                then add_bytes_sent (payload_str_len pl) st else st in
      let st := if status_code <? 400
                then incr_successful st else incr_failed st in
      let st := count_status (str status_code) st in
      (st, Ok (RetResponse status_code response_time (Z.of_nat content_len)))
  end.

(** From the return of the HTTP call to line 151; [returned] is the clock
    when [session.get] / [session.post] comes back. *)
Definition make_request_leave (self : HTTPStorm) (c : call) (returned : Z)
    (x : exchange) : HTTPStorm * res ret :=
  match c_request c, x with
  | Some _, Failed e => (self, Raise e)
  | rq, _ =>
      let response :=
        match rq, x with
        | Some _, Responded status_code content_len =>
            Some (status_code, content_len)
        | _, _ => None
        end in
      (* response_time = time.time() - start_time *)
      let response_time := returned - c_start_time c in
      let '(st, r) :=
        record_response (stats self) response_time response (c_payload c) in
      (with_stats st self, r)
  end.

(** The two handlers, lines 153-166. *)
Definition make_request_except (self : HTTPStorm) (e : exn)
  : HTTPStorm * ret :=
  if exn_requests_timeout e then
    let st := incr_total (stats self) in
    let st := incr_timeouts st in
    let st := incr_failed st in
    (with_stats st self, RetTimeout)
  else
    let st := incr_total (stats self) in
    let st := incr_failed st in
    let st := count_error (exn_name e) st in
    (with_stats st self, RetError (exn_str e)).

(** What one call leaves behind: the object, the returned value and the
    calls made into the HTTP layer. *)
Record attempt := {
  a_self : HTTPStorm;
  a_ret : ret;
  a_sent : list request
}.

Definition sent_of (c : call) : list request :=
  match c_request c with
  | Some rq => [rq]
  | None => []
  end.

Definition make_request (self : HTTPStorm) (now returned : Z) (o : oracle)
  : attempt :=
  if negb (running self) then
    {| a_self := self; a_ret := RetNone; a_sent := [] |}
  else
    match make_request_enter self now o with
    | Raise e =>
        let '(self', r) := make_request_except self e in
        {| a_self := self'; a_ret := r; a_sent := [] |}
    | Ok c =>
        match make_request_leave self c returned (o_exchange o) with
        | (self', Ok r) =>
            {| a_self := self'; a_ret := r; a_sent := sent_of c |}
        | (self', Raise e) =>
            let '(self'', r) := make_request_except self' e in
            {| a_self := self''; a_ret := r; a_sent := sent_of c |}
        end
    end.

(** ** [async_worker] *)

(** Lines 202-208, up to [session.get]: here the clock is read before the
    optional sleep. *)
Definition async_worker_enter (self : HTTPStorm) (now : Z) (o : oracle)
  : res call :=
  let d := o_draws o in
  try! hdrs := get_random_headers self d in
  (* start_time = time.time() *)
  let start := now in
  (* if self.random_delay: await asyncio.sleep(random.uniform(0.01, 0.2)) *)
  let slept := if random_delay self
               then uniform 10000 200000 (d_delay d) + Z.of_N (o_overslept o)
               else 0 in
  Ok {| c_payload := None;
        c_start_time := start;
        c_request :=
          Some {| rq_verb := "GET"; rq_url := url self; rq_headers := hdrs;
                  rq_data := None; rq_proxies := None;
                  rq_timeout := timeout self; rq_verify := None;
                  rq_at := now + slept |} |}.

(** Lines 208-223; [returned] is the clock when [response.read()] is back. *)
Definition async_worker_leave (self : HTTPStorm) (c : call) (returned : Z)
    (x : exchange) : HTTPStorm * res unit :=
  match x with
  | Failed e => (self, Raise e)
  | Responded status content_len =>
      let response_time := returned - c_start_time c in
      let st := incr_total (stats self) in
      let st := append_response_time response_time st in
      let st := add_bytes_received (Z.of_nat content_len) st in
      let st := if status <? 400 then incr_successful st else incr_failed st in
      let st := count_status (str status) st in
      (with_stats st self, Ok tt)
  end.

(** The handler, lines 225-230. *)
Definition async_worker_except (self : HTTPStorm) (e : exn) : HTTPStorm :=
  let st := incr_total (stats self) in
  let st := incr_failed st in
  let st := count_error (exn_name e) st in
  with_stats st self.

(** The body of [async_worker] once it holds the semaphore. *)
Definition async_worker (self : HTTPStorm) (now returned : Z) (o : oracle)
  : HTTPStorm * list request :=
  match async_worker_enter self now o with
  | Raise e => (async_worker_except self e, [])
  | Ok c =>
      match async_worker_leave self c returned (o_exchange o) with
      | (self', Ok _) => (self', sent_of c)
      | (self', Raise e) => (async_worker_except self' e, sent_of c)
      end
  end.

(** ** Schedules

    A run is driven by a list of events, each stamped with the clock value
    at which it happens.  [Step t i o]: thread (or task) [i] runs from the
    point where it is suspended to its next suspension point.  [Turn t]:
    the [async_storm] coroutine runs one iteration of its loop.  [Wake t]:
    the thread that waits on a timer is scheduled again: the main thread in
    [time.sleep(self.duration)] or in a [join(timeout=5)], the [stop_storm]
    thread in its sleep.  It goes on if the time it waits for has passed: a
    timer never fires early and may fire late.  [CtrlC t]: the operator
    interrupts the main thread. *)
Inductive event : Type :=
| Step (clock : Z) (tid : nat) (o : oracle)
| Turn (clock : Z)
| Wake (clock : Z)
| CtrlC (clock : Z).

(** ** [worker_thread] *)

(** Where a worker thread stands: at the [while] test; past the test (and
    the pacing sleep), about to call [make_request]; inside [make_request]
    past the test of line 98, the call prepared, in the sleep of line 108;
    inside [make_request], waiting for the HTTP layer; out of the loop. *)
Inductive wpc : Type :=
| AtHead
| Paced
| Delayed (c : call)
| Called (c : call)
| Exited.

Record worker := {
  w_pc : wpc;
  requests_made : Z
}.

Definition worker_start : worker := {| w_pc := AtHead; requests_made := 0 |}.

(** The loop test of lines 184-186: [true] when the worker goes on. *)
Definition worker_continues (self : HTTPStorm) : bool :=
  running self &&
  negb ((requests self >? 0) && (total_requests (stats self) >=? requests self)).

Definition worker_thread_step (self : HTTPStorm) (w : worker) (t : Z)
    (o : oracle) : HTTPStorm * worker * list request :=
  let next := {| w_pc := AtHead; requests_made := requests_made w + 1 |} in
  match w_pc w with
  | Exited => (self, w, [])
  | AtHead =>
      if worker_continues self
      then (self, {| w_pc := Paced; requests_made := requests_made w |}, [])
      else (self, {| w_pc := Exited; requests_made := requests_made w |}, [])
  | Paced =>
      (* result = self.make_request(session): the test of line 98, the
         draws, and into the sleep *)
      if negb (running self) then (self, next, [])
      else
        match make_request_enter self t o with
        | Raise e => (fst (make_request_except self e), next, [])
        | Ok c =>
            (self, {| w_pc := Delayed c; requests_made := requests_made w |},
             [])
        end
  | Delayed c =>
      (* the sleep is over at [c_start_time c]: the call is made, whatever
         [self.running] has become *)
      (self, {| w_pc := Called c; requests_made := requests_made w |},
       sent_of c)
  | Called c =>
      match make_request_leave self c t (o_exchange o) with
      | (self', Ok _) => (self', next, [])
      | (self', Raise e) => (fst (make_request_except self' e), next, [])
      end
  end.

(** The threads of the multi-thread mode, the shared object and the calls
    made so far. *)
Record pool := {
  p_self : HTTPStorm;
  p_workers : list worker;
  p_sent : list request
}.

Definition pool_step (p : pool) (t : Z) (tid : nat) (o : oracle) : pool :=
  match p_workers p !! tid with
  | None => p
  | Some w =>
      let '(self', w', rqs) := worker_thread_step (p_self p) w t o in
      {| p_self := self';
         p_workers := <[tid := w']> (p_workers p);
         p_sent := p_sent p ++ rqs |}
  end.

Definition has_exited (w : worker) : bool :=
  match w_pc w with
  | Exited => true
  | _ => false
  end.

Definition exited_at (p : pool) (tid : nat) : bool :=
  match p_workers p !! tid with
  | Some w => has_exited w
  | None => true
  end.

(** How a dispatch loop came to its end. *)
Inductive ending : Type :=
| Returned
| KeyboardInterrupt.

(** [for t in threads: t.join()] (lines 354-355): the main thread waits
    until every worker has left its loop.  [None]: the schedule ends while
    some worker is still running. *)
Fixpoint join_all (p : pool) (now : Z) (evs : list event)
  : option (pool * Z * ending) :=
  if forallb has_exited (p_workers p) then Some (p, now, Returned)
  else
    match evs with
    | [] => None
    | Step t tid o :: evs' => join_all (pool_step p t tid o) t evs'
    | Turn t :: evs' => join_all p t evs'
    | Wake t :: evs' => join_all p t evs'
    | CtrlC t :: _ => Some (p, t, KeyboardInterrupt)
    end.

(** [time.sleep(self.duration)] in the main thread (line 378): the workers
    run until the main thread is scheduled again with its sleep over, at
    [deadline] or later.  When the schedule has no further event, nothing
    else happens before the sleep is over. *)
Fixpoint main_sleep (deadline : Z) (p : pool) (now : Z) (evs : list event)
  : pool * Z * list event * ending :=
  match evs with
  | [] => (p, Z.max deadline now, [], Returned)
  | Step t tid o :: evs' => main_sleep deadline (pool_step p t tid o) t evs'
  | Turn t :: evs' => main_sleep deadline p t evs'
  | Wake t :: evs' =>
      if deadline <=? t then (p, t, evs', Returned)
      else main_sleep deadline p t evs'
  | CtrlC t :: evs' => (p, t, evs', KeyboardInterrupt)
  end.

(** [t.join(timeout=5)]: returns when thread [tid] has exited, or when the
    main thread is scheduled again with the timeout over, at [limit] or
    later. *)
Fixpoint join_timeout (tid : nat) (limit : Z) (p : pool) (now : Z)
    (evs : list event) : pool * Z * list event * ending :=
  if exited_at p tid then (p, now, evs, Returned)
  else
    match evs with
    | [] => (p, Z.max limit now, [], Returned)
    | Step t i o :: evs' => join_timeout tid limit (pool_step p t i o) t evs'
    | Turn t :: evs' => join_timeout tid limit p t evs'
    | Wake t :: evs' =>
        if limit <=? t then (p, t, evs', Returned)
        else join_timeout tid limit p t evs'
    | CtrlC t :: evs' => (p, t, evs', KeyboardInterrupt)
    end.

(** [for t in threads: t.join(timeout=5)] (lines 381-382). *)
Fixpoint join_each (tids : list nat) (p : pool) (now : Z) (evs : list event)
  : pool * Z * ending :=
  match tids with
  | [] => (p, now, Returned)
  | tid :: rest =>
      match join_timeout tid (now + 5000000) p now evs with
      | (p', now', evs', Returned) => join_each rest p' now' evs'
      | (p', now', _, KeyboardInterrupt) => (p', now', KeyboardInterrupt)
      end
  end.

(** [range(self.threads)] threads, all started. *)
Definition spawn_workers (self : HTTPStorm) : pool :=
  {| p_self := self;
     p_workers := replicate (Z.to_nat (threads self)) worker_start;
     p_sent := [] |}.

Definition pool_stop (p : pool) : pool :=
  {| p_self := with_running false (p_self p);
     p_workers := p_workers p;
     p_sent := p_sent p |}.

(** ** [async_storm] *)

(** Where a task running [async_worker] stands: waiting for the semaphore;
    holding it and awaiting the sleep and the HTTP exchange; done. *)
Inductive tpc : Type :=
| Waiting
| Flying (c : call)
| Finished.

(** The state of [async_storm]: the object, every task created so far (a
    task is named by its position), the local list [tasks], and the calls
    made so far. *)
Record aloop := {
  l_self : HTTPStorm;
  l_created : list tpc;
  l_tasks : list nat;
  l_sent : list request
}.

Definition is_flying (t : tpc) : bool :=
  match t with
  | Flying _ => true
  | _ => false
  end.

(** [t.done()]. *)
Definition task_done (l : aloop) (i : nat) : bool :=
  match l_created l !! i with
  | Some Finished => true
  | _ => false
  end.

(** The semaphore has a free slot: fewer than [self.threads] holders. *)
Definition semaphore_free (l : aloop) : bool :=
  Z.of_nat (length (filter (fun t => is_flying t = true) (l_created l)))
    <? threads (l_self l).

(** One iteration of the loop of lines 247-258; [None] when the loop is
    left. *)
Definition async_storm_turn (l : aloop) : option aloop :=
  if worker_continues (l_self l) then
    let l1 :=
      if Z.of_nat (length (l_tasks l)) <? threads (l_self l) * 20 then
        {| l_self := l_self l;
           l_created := l_created l ++ [Waiting];
           l_tasks := l_tasks l ++ [length (l_created l)];
           l_sent := l_sent l |}
      else l in
    Some {| l_self := l_self l1;
            l_created := l_created l1;
            l_tasks := filter (fun i => task_done l1 i = false) (l_tasks l1);
            l_sent := l_sent l1 |}
  else None.

(** Task [i] is resumed at clock [t]. *)
Definition async_task_step (l : aloop) (t : Z) (i : nat) (o : oracle)
  : aloop :=
  match l_created l !! i with
  | Some Waiting =>
      if semaphore_free l then
        match async_worker_enter (l_self l) t o with
        | Raise e =>
            {| l_self := async_worker_except (l_self l) e;
               l_created := <[i := Finished]> (l_created l);
               l_tasks := l_tasks l;
               l_sent := l_sent l |}
        | Ok c =>
            {| l_self := l_self l;
               l_created := <[i := Flying c]> (l_created l);
               l_tasks := l_tasks l;
               l_sent := l_sent l ++ sent_of c |}
        end
      else l
  | Some (Flying c) =>
      let self' :=
        match async_worker_leave (l_self l) c t (o_exchange o) with
        | (self', Ok _) => self'
        | (self', Raise e) => async_worker_except self' e
        end in
      {| l_self := self';
         l_created := <[i := Finished]> (l_created l);
         l_tasks := l_tasks l;
         l_sent := l_sent l |}
  | _ => l
  end.

Definition aloop_set_running (b : bool) (l : aloop) : aloop :=
  {| l_self := with_running b (l_self l);
     l_created := l_created l;
     l_tasks := l_tasks l;
     l_sent := l_sent l |}.

(** The [stop_storm] thread of lines 360-362, scheduled again at clock
    [now]: if its sleep is over, it puts the flag down.  [None]: no such
    thread sleeps (the mode has none, or its [time.sleep] has refused a
    negative duration). *)
Definition stop_storm (deadline : option Z) (now : Z) (l : aloop) : aloop :=
  match deadline with
  | Some dl => if dl <=? now then aloop_set_running false l else l
  | None => l
  end.

(** [loop.run_until_complete(self.async_storm())].  The result is [None]
    when the schedule ends before the loop is left. *)
Fixpoint async_loop (deadline : option Z) (l : aloop) (evs : list event)
  : option (aloop * Z * ending) :=
  match evs with
  | [] => None
  | Step t i o :: evs' => async_loop deadline (async_task_step l t i o) evs'
  | Turn t :: evs' =>
      match async_storm_turn l with
      | None => Some (l, t, Returned)
      | Some l' => async_loop deadline l' evs'
      end
  | Wake t :: evs' => async_loop deadline (stop_storm deadline t l) evs'
  | CtrlC t :: _ => Some (l, t, KeyboardInterrupt)
  end.

Definition ValueError (msg : string) : exn :=
  {| exn_name := "ValueError"; exn_str := msg; exn_requests_timeout := false |}.

(** [asyncio.Semaphore(self.threads)] refuses a negative value. *)
Definition async_storm (deadline : option Z) (self : HTTPStorm)
    (evs : list event) : option (res (aloop * Z * ending)) :=
  if threads self <? 0 then
    Some (Raise (ValueError "Semaphore initial value must be >= 0"))
  else
    match async_loop deadline
            {| l_self := self; l_created := []; l_tasks := []; l_sent := [] |}
            evs with
    | Some r => Some (Ok r)
    | None => None
    end.

(** ** [print_final_report] *)

Definition ZeroDivisionError : exn :=
  {| exn_name := "ZeroDivisionError"; exn_str := "division by zero";
     exn_requests_timeout := false |}.

Definition StatisticsError : exn :=
  {| exn_name := "StatisticsError"; exn_str := "no data points";
     exn_requests_timeout := false |}.

(** Python's [a / b]: the quotient, not rounded to a float. *)
Definition truediv (a b : Q) : res Q :=
  if Qeq_bool b 0 then Raise ZeroDivisionError else Ok (a / b)%Q.

Definition sumZ (l : list Z) : Z := foldr Z.add 0 l.

(** [statistics.mean]. *)
Definition mean (l : list Z) : res Q :=
  match l with
  | [] => Raise StatisticsError
  | _ => Ok (inject_Z (sumZ l) / inject_Z (Z.of_nat (length l)))%Q
  end.

(** [statistics.median]. *)
Definition median (l : list Z) : res Q :=
  let data := merge_sort Z.le l in
  let n := length data in
  match n with
  | O => Raise StatisticsError
  | _ =>
      if Nat.odd n then Ok (inject_Z (nth (n / 2)%nat data 0%Z))
      else Ok ((inject_Z (nth (n / 2 - 1)%nat data 0%Z)
                + inject_Z (nth (n / 2)%nat data 0%Z)) / 2)%Q
  end.

Inductive verdict : Type :=
| YES
| PARTIAL
| DEFENDED.

(** The numbers of the report box: seconds, requests per second, percent,
    microseconds (both response times), megabytes. *)
Record box := {
  box_duration : Q;
  box_total : Z;
  box_rps : Q;
  box_success_rate : Q;
  box_avg_response : Q;
  box_median_response : Q;
  box_data : Q;
  box_verdict : verdict
}.

(** What [print_final_report] prints. *)
Inductive printed : Type :=
| NoRequestsCompleted
| StormReport (b : box).

Definition print_final_report (self : HTTPStorm) (now : Z) : res printed :=
  let total := total_requests (stats self) in
  if total =? 0 then Ok NoRequestsCompleted
  else
    let elapsed := (inject_Z (now - start_time (stats self)) / 1000000)%Q in
    try! ratio := truediv (inject_Z (successful (stats self))) (inject_Z total) in
    let success_rate := (ratio * 100)%Q in
    try! avg_rps := if Qltb 0 elapsed then truediv (inject_Z total) elapsed
                    else Ok 0%Q in
    try! avg_response := match response_times (stats self) with
                         | [] => Ok 0%Q
                         | _ => mean (response_times (stats self))
                         end in
    try! median_response := match response_times (stats self) with
                            | [] => Ok 0%Q
                            | _ => median (response_times (stats self))
                            end in
    try! kb := truediv (inject_Z (bytes_sent (stats self)
                                  + bytes_received (stats self))) 1024 in
    try! total_data := truediv kb 1024 in
    Ok (StormReport
          {| box_duration := elapsed;
             box_total := total;
             box_rps := avg_rps;
             box_success_rate := success_rate;
             box_avg_response := avg_response;
             box_median_response := median_response;
             box_data := total_data;
             box_verdict := if Qltb 80 success_rate then YES
                            else if Qltb 50 success_rate then PARTIAL
                            else DEFENDED |}).

(** ** [start_storm] *)

Definition seconds (n : Z) : Z := n * 1000000.

(** A run that has ended: the object, the calls made into the HTTP layer,
    how the dispatch ended, the clock at the end, and the final report. *)
Record run := {
  r_self : HTTPStorm;
  r_sent : list request;
  r_ending : ending;
  r_clock : Z;
  r_printed : printed
}.

(** The [try] block of lines 339-386 with its [KeyboardInterrupt] handler:
    the object and the calls made when it is left, the clock, and how it
    was left.  [None]: the schedule ends before the block does. *)
Definition dispatch (self : HTTPStorm) (use_async : bool) (t0 : Z)
    (evs : list event)
  : option (res (HTTPStorm * list request * Z * ending)) :=
  if requests self >? 0 then
    (* Request-limited mode *)
    if use_async then
      match async_storm None self evs with
      | None => None
      | Some (Raise e) => Some (Raise e)
      | Some (Ok (l, now, how)) =>
          Some (Ok (with_running false (l_self l), l_sent l, now, how))
      end
    else
      match join_all (spawn_workers self) t0 evs with
      | None => None
      | Some (p, now, how) =>
          Some (Ok (with_running false (p_self p), p_sent p, now, how))
      end
  else
    (* Duration-limited mode *)
    if use_async then
      let deadline :=
        if duration self <? 0 then None
        else Some (t0 + seconds (duration self)) in
      match async_storm deadline self evs with
      | None => None
      | Some (Raise e) => Some (Raise e)
      | Some (Ok (l, now, Returned)) =>
          Some (Ok (l_self l, l_sent l, now, Returned))
      | Some (Ok (l, now, KeyboardInterrupt)) =>
          Some (Ok (with_running false (l_self l), l_sent l, now,
                    KeyboardInterrupt))
      end
    else if duration self <? 0 then
      Some (Raise (ValueError "sleep length must be non-negative"))
    else
      match main_sleep (t0 + seconds (duration self)) (spawn_workers self)
              t0 evs
      with
      | (p, now, _, KeyboardInterrupt) =>
          Some (Ok (with_running false (p_self p), p_sent p, now,
                    KeyboardInterrupt))
      | (p, now, evs', Returned) =>
          (* self.running = False, then the joins *)
          match join_each (seq 0 (length (p_workers p))) (pool_stop p) now evs'
          with
          | (p', now', Returned) => Some (Ok (p_self p', p_sent p', now', Returned))
          | (p', now', KeyboardInterrupt) =>
              Some (Ok (with_running false (p_self p'), p_sent p', now',
                        KeyboardInterrupt))
          end
      end.

Definition start_storm (self : HTTPStorm) (use_async : bool) (t0 : Z)
    (evs : list event) : option (res run) :=
  (* self.stats['start_time'] = time.time() *)
  let self := with_stats (set_start_time t0 (stats self)) self in
  match dispatch self use_async t0 evs with
  | None => None
  | Some (Raise e) => Some (Raise e)
  | Some (Ok (self', sent, now, how)) =>
      match print_final_report self' now with
      | Raise e => Some (Raise e)
      | Ok out =>
          Some (Ok {| r_self := self'; r_sent := sent; r_ending := how;
                      r_clock := now; r_printed := out |})
      end
  end.

(** ** [main] *)

(** The parsed command line. *)
Record Args := {
  arg_url : string;
  arg_duration : Z;
  arg_requests : Z;
  arg_threads : Z;
  arg_rps : Z;
  arg_method : string;
  arg_timeout : Q;
  arg_use_async : bool;
  arg_stealth : bool;
  arg_random_delay : bool;
  arg_config : option string;
  arg_no_ssl_verify : bool
}.

Definition default_user_agents : list string :=
  ["Mozilla/5.0 (Windows NT 10.0; Win64; x64) AppleWebKit/537.36 (KHTML, like Gecko) Chrome/91.0.4472.124 Safari/537.36";
   "Mozilla/5.0 (Macintosh; Intel Mac OS X 10_15_7) AppleWebKit/605.1.15 (KHTML, like Gecko) Version/14.1.1 Safari/605.1.15";
   "Mozilla/5.0 (X11; Linux x86_64) AppleWebKit/537.36 (KHTML, like Gecko) Chrome/91.0.4472.124 Safari/537.36";
   "Mozilla/5.0 (Windows NT 10.0; Win64; x64; rv:89.0) Gecko/20100101 Firefox/89.0";
   "Mozilla/5.0 (iPhone; CPU iPhone OS 14_6 like Mac OS X) AppleWebKit/605.1.15 (KHTML, like Gecko) Version/14.0 Mobile/15E148 Safari/604.1"].

(** The dictionary built at lines 468-483. *)
Definition build_config (args : Args) : ConfigMap :=
  {| cm_url := Some (arg_url args);
     cm_duration := Some (arg_duration args);
     cm_requests := Some (arg_requests args);
     cm_threads := Some (arg_threads args);
     cm_rps := Some (arg_rps args);
     cm_method := Some (arg_method args);
     cm_headers := Some ∅;
     cm_payloads := Some [];
     cm_user_agents := Some default_user_agents;
     cm_proxies := Some [];
     cm_stealth := Some (arg_stealth args);
     cm_random_delay := Some (arg_random_delay args);
     cm_verify_ssl := Some (negb (arg_no_ssl_verify args));
     cm_timeout := Some (arg_timeout args) |}.

(** [config.update(file_config)]: a key of [file_config] wins. *)
Definition update (config file_config : ConfigMap) : ConfigMap :=
  let pick {A} (f : ConfigMap -> option A) : option A :=
    match f file_config with
    | Some v => Some v
    | None => f config
    end in
  {| cm_url := pick cm_url;
     cm_duration := pick cm_duration;
     cm_requests := pick cm_requests;
     cm_threads := pick cm_threads;
     cm_rps := pick cm_rps;
     cm_method := pick cm_method;
     cm_headers := pick cm_headers;
     cm_payloads := pick cm_payloads;
     cm_user_agents := pick cm_user_agents;
     cm_proxies := pick cm_proxies;
     cm_stealth := pick cm_stealth;
     cm_random_delay := pick cm_random_delay;
     cm_verify_ssl := pick cm_verify_ssl;
     cm_timeout := pick cm_timeout |}.

(** [file_config['url'] = args.url]. *)
Definition set_url (u : string) (c : ConfigMap) : ConfigMap :=
  {| cm_url := Some u;
     cm_duration := cm_duration c; cm_requests := cm_requests c;
     cm_threads := cm_threads c; cm_rps := cm_rps c;
     cm_method := cm_method c; cm_headers := cm_headers c;
     cm_payloads := cm_payloads c; cm_user_agents := cm_user_agents c;
     cm_proxies := cm_proxies c; cm_stealth := cm_stealth c;
     cm_random_delay := cm_random_delay c;
     cm_verify_ssl := cm_verify_ssl c; cm_timeout := cm_timeout c |}.

(** What [main] comes to: [sys.exit(1)], or the object it constructs and
    the mode it starts it in. *)
Inductive launch : Type :=
| Exit1
| Storm (self : res HTTPStorm) (use_async : bool).

(** [main], up to the call of [start_storm], when the configuration file
    reads as a mapping: [load_config] is that mapping (the empty one when
    the file is missing or is not JSON). *)
Definition main (args : Args) (load_config : string -> ConfigMap) : launch :=
  if negb (String.prefix "http://" (arg_url args)
           || String.prefix "https://" (arg_url args))
  then Exit1
  else
    let config := build_config args in
    let config :=
      match arg_config args with
      | Some path =>
          if String.eqb path "" then config
          else update config (set_url (arg_url args) (load_config path))
      | None => config
      end in
    Storm (init config) (arg_use_async args).

(** ** Vocabulary of the properties *)

(** [self.method.upper()] is one of the two verbs [make_request] knows. *)
Definition method_supported (self : HTTPStorm) : bool :=
  String.eqb (upper (method self)) "GET"
  || String.eqb (upper (method self)) "POST".

(** One attempt counted once: the total moves by one and exactly one of
    [successful], [failed] moves by one. *)
Definition counted_once (st st' : Stats) : Prop :=
  total_requests st' = total_requests st + 1 ∧
  ((successful st' = successful st + 1 ∧ failed st' = failed st) ∨
   (successful st' = successful st ∧ failed st' = failed st + 1)).

(** A completed recording operation of either dispatch mode. *)
Inductive operation : Type :=
| MakeRequest (now returned : Z) (o : oracle)
| AsyncWorker (now returned : Z) (o : oracle).

Definition perform (self : HTTPStorm) (op : operation) : HTTPStorm :=
  match op with
  | MakeRequest now returned o => a_self (make_request self now returned o)
  | AsyncWorker now returned o => fst (async_worker self now returned o)
  end.


(** The value the stealth block writes under key [k], if it writes one. *)
Definition stealth_value (d : draws) (k : string) : option string :=
  if String.eqb k "DNT" then
    if Qltb (d_dnt d) (4 # 10) then Some "1" else None
  else if String.eqb k "X-Real-IP" then
    if Qltb (d_real d) (2 # 10) then Some (spoofed_ip (d_real_ip d)) else None
  else if String.eqb k "X-Forwarded-For" then
    if Qltb (d_forwarded d) (3 # 10)
    then Some (spoofed_ip (d_forwarded_ip d)) else None
  else None.


(** A call as [async_worker] makes it: GET, no body, no proxy, no [verify]
    argument. *)
Definition plain_get (rq : request) : Prop :=
  rq_verb rq = "GET" ∧ rq_data rq = None ∧ rq_proxies rq = None ∧
  rq_verify rq = None.





(** The invariant of C10: every call made so far is a plain GET and
    [bytes_sent] still has the value [b]. *)
Definition async_sends_nothing (b : Z) (l : aloop) : Prop :=
  Forall plain_get (l_sent l) ∧ bytes_sent (stats (l_self l)) = b.



(** ** Concrete inputs *)

(** Draws under which no stealth header is attached. *)
Definition quiet_draws : draws :=
  {| d_user_agent := 0; d_accept := 0; d_language := 0; d_connection := 0;
     d_cache := 0;
     d_forwarded := 1; d_forwarded_ip := (9, 9, 9, 9)%nat;
     d_real := 1; d_real_ip := (9, 9, 9, 9)%nat;
     d_dnt := 1; d_payload := 0; d_proxy := 0; d_delay := 0 |}.

(** Draws under which every stealth header is attached. *)
Definition eager_draws : draws :=
  {| d_user_agent := 0; d_accept := 0; d_language := 0; d_connection := 0;
     d_cache := 0;
     d_forwarded := 0; d_forwarded_ip := (9, 9, 9, 9)%nat;
     d_real := 0; d_real_ip := (9, 9, 9, 9)%nat;
     d_dnt := 0; d_payload := 0; d_proxy := 0; d_delay := 0 |}.

Definition answer (x : exchange) : oracle :=
  {| o_draws := quiet_draws; o_overslept := 0; o_exchange := x |}.

(** [asyncio.TimeoutError], as aiohttp raises it when [timeout] expires. *)
Definition asyncio_TimeoutError : exn :=
  {| exn_name := "TimeoutError"; exn_str := "";
     exn_requests_timeout := false |}.

(** [requests.exceptions.ReadTimeout]. *)
Definition requests_ReadTimeout : exn :=
  {| exn_name := "ReadTimeout"; exn_str := "Read timed out.";
     exn_requests_timeout := true |}.

(** A mapping as [main] builds it, with [verb], a request ceiling, a
    duration, one text payload and no TLS-verify key. *)
Definition sample_config (verb : string) (ceiling dur : Z) : ConfigMap :=
  {| cm_url := Some "http://127.0.0.1:8080/";
     cm_duration := Some dur;
     cm_requests := Some ceiling;
     cm_threads := Some 2;
     cm_rps := Some 0;
     cm_method := Some verb;
     cm_headers := Some {[ "DNT" := "0" ]};
     cm_payloads := Some [PStr "abc"];
     cm_user_agents := Some default_user_agents;
     cm_proxies := Some [];
     cm_stealth := Some true;
     cm_random_delay := Some true;
     cm_verify_ssl := None;
     cm_timeout := Some (10 # 1)%Q |}.

(** The object [HTTPStorm(sample_config ...)]. *)
Definition sample_storm (verb : string) (ceiling dur : Z) : HTTPStorm :=
  match init (sample_config verb ceiling dur) with
  | Ok self => self
  | Raise _ =>
      {| url := ""; duration := 0; requests := 0; threads := 0; rps := 0;
         method := ""; headers := ∅; payloads := []; user_agents := [];
         proxies := []; stealth := false; random_delay := false;
         verify_ssl := false; timeout := 0%Q; stats := initial_stats;
         running := false |}
  end.





(** A schedule of the cooperative mode: two tasks are created, run and
    complete, and the loop takes further turns. *)
Definition sample_async_schedule : list event :=
  [Turn 1; Step 2 0 (answer (Responded 200 7)); Turn 3;
   Step 40000 0 (answer (Responded 200 7));
   Step 40001 1 (answer (Responded 200 7)); Turn 40002;
   Step 90000 1 (answer (Responded 503 0)); Turn 90001; Turn 90002].

(** A schedule of the multi-thread mode with two threads.  Both make a
    first call; thread 0 is answered after two seconds, thread 1 shortly
    before the third.  The main thread is woken at the first and at the
    third second.  Thread 0 makes a second call, answered at the fourth
    second; thread 1 comes back to its loop test just before the third
    second, and if it goes on, it is in the sleep of [make_request] when
    the third second passes and makes its second call after it. *)
Definition sample_thread_schedule : list event :=
  [Step 100 0 (answer (Responded 200 7));
   Step 101 0 (answer (Responded 200 7));
   Step 200 1 (answer (Responded 200 7));
   Step 201 1 (answer (Responded 200 7));
   Step 10101 0 (answer (Responded 200 7));
   Step 10201 1 (answer (Responded 200 7));
   Wake 1000000;
   Step 2000000 0 (answer (Responded 200 7));
   Step 2000001 0 (answer (Responded 200 7));
   Step 2000002 0 (answer (Responded 200 7));
   Step 2010002 0 (answer (Responded 200 7));
   Step 2990000 1 (answer (Responded 404 7));
   Step 2990001 1 (answer (Responded 200 7));
   Step 2990002 1 (answer (Responded 200 7));
   Wake 3000000;
   Step 3000002 1 (answer (Responded 200 7));
   Step 4000000 0 (answer (Responded 200 7));
   Step 4000001 0 (answer (Responded 200 7));
   Step 4500000 1 (answer (Responded 200 7));
   Step 4500001 1 (answer (Responded 200 7))].

(** * More of storm.py *)

(** ** [load_config] *)

(** What opening and parsing the configuration file comes to: the file is
    not there, it is not JSON, it holds a mapping, or the read fails with
    another exception. *)
Inductive file_read : Type :=
| Missing
| Malformed
| Parsed (c : ConfigMap)
| Failing (e : exn).

(** The dictionary [{}]. *)
Definition empty_config : ConfigMap :=
  {| cm_url := None; cm_duration := None; cm_requests := None;
     cm_threads := None; cm_rps := None; cm_method := None;
     cm_headers := None; cm_payloads := None; cm_user_agents := None;
     cm_proxies := None; cm_stealth := None; cm_random_delay := None;
     cm_verify_ssl := None; cm_timeout := None |}.

(** Lines 424-434: the two handlers return [{}]; any other exception
    leaves the function. *)
Definition load_config (f : file_read) : res ConfigMap :=
  match f with
  | Parsed c => Ok c
  | Missing => Ok empty_config
  | Malformed => Ok empty_config
  | Failing e => Raise e
  end.

(** What the file named by [--config] comes to when [main] reads it: one
    of the cases of [load_config], or a JSON text that is not an object (a
    list, a string, a number, [true], [null]), which [json.load] returns
    as it is. *)
Inductive config_source : Type :=
| Reads (f : file_read)
| OtherJson.

Definition TypeError : exn :=
  {| exn_name := "TypeError";
     exn_str := "object does not support item assignment";
     exn_requests_timeout := false |}.

(** [main] with the configuration file read by [load_config], up to the
    call of [start_storm] (lines 454-493).  An exception of [load_config]
    leaves [main]; a JSON value that is not an object passes [load_config]
    and the test of line 486, and [file_config['url'] = args.url] raises
    [TypeError] on it. *)
Definition main_with_file (args : Args) (file : string → config_source)
  : res launch :=
  if negb (String.prefix "http://" (arg_url args)
           || String.prefix "https://" (arg_url args))
  then Ok Exit1
  else
    match arg_config args with
    | Some path =>
        if String.eqb path "" then Ok (main args (λ _, empty_config))
        else
          match file path with
          | OtherJson => Raise TypeError
          | Reads f =>
              try! file_config := load_config f in
              Ok (main args (λ _, file_config))
          end
    | None => Ok (main args (λ _, empty_config))
    end.

(** The command line without [--config]. *)
Definition without_config (args : Args) : Args :=
  {| arg_url := arg_url args; arg_duration := arg_duration args;
     arg_requests := arg_requests args; arg_threads := arg_threads args;
     arg_rps := arg_rps args; arg_method := arg_method args;
     arg_timeout := arg_timeout args; arg_use_async := arg_use_async args;
     arg_stealth := arg_stealth args;
     arg_random_delay := arg_random_delay args;
     arg_config := None; arg_no_ssl_verify := arg_no_ssl_verify args |}.

(** ** Vocabulary of the further properties *)

(** The nine keys [__init__] subscripts are all bound. *)
Definition required_present (c : ConfigMap) : Prop :=
  is_Some (cm_url c) ∧ is_Some (cm_duration c) ∧ is_Some (cm_threads c) ∧
  is_Some (cm_rps c) ∧ is_Some (cm_method c) ∧ is_Some (cm_headers c) ∧
  is_Some (cm_payloads c) ∧ is_Some (cm_user_agents c) ∧
  is_Some (cm_proxies c).

(** The test of line 454. *)
Definition has_scheme (u : string) : bool :=
  String.prefix "http://" u || String.prefix "https://" u.

(** The keys of the randomized baseline, each with the candidates its
    value is drawn from. *)
Definition baseline_options (self : HTTPStorm) : list (string * list string) :=
  [("User-Agent", user_agents self);
   ("Accept", accept_options);
   ("Accept-Language", language_options);
   ("Accept-Encoding", ["gzip, deflate, br"]);
   ("Connection", ["keep-alive"; "close"]);
   ("Cache-Control", ["no-cache"; "max-age=0"; "no-store"])].

Definition baseline_keys : gset string :=
  list_to_set ["User-Agent"; "Accept"; "Accept-Language"; "Accept-Encoding";
               "Connection"; "Cache-Control"].

Definition stealth_keys : gset string :=
  list_to_set ["X-Forwarded-For"; "X-Real-IP"; "DNT"].

(** The order the counters stand in. *)
Definition counters_ordered (st : Stats) : Prop :=
  0 ≤ timeouts st ∧ timeouts st ≤ failed st ∧
  0 ≤ successful st ∧
  successful st ≤ Z.of_nat (length (response_times st)) ∧
  Z.of_nat (length (response_times st)) + timeouts st ≤ total_requests st ∧
  successful st + failed st ≤ total_requests st.




(** A worker that has passed the loop test and not yet come back to it. *)
Definition in_flight (w : worker) : bool :=
  match w_pc w with
  | Paced => true
  | Delayed _ => true
  | Called _ => true
  | _ => false
  end.

Definition in_flight_count (ws : list worker) : nat :=
  length (filter (λ w, in_flight w = true) ws).

(** The tasks that hold the semaphore. *)
Definition flying_count (l : aloop) : nat :=
  length (filter (λ t, is_flying t = true) (l_created l)).

(** The state of a request-limited pool whose method is GET or POST: the
    attempts counted and the attempts under way together stay below the
    ceiling [n] plus the number of threads, and every attempt under way
    has a call to make or has made one. *)
Definition pool_within_overshoot (n : Z) (p : pool) : Prop :=
  method_supported (p_self p) = true ∧
  requests (p_self p) = n ∧
  total_requests (stats (p_self p)) + Z.of_nat (in_flight_count (p_workers p))
  ≤ n - 1 + Z.of_nat (length (p_workers p)) ∧
  ∀ i w c, p_workers p !! i = Some w →
           w_pc w = Delayed c ∨ w_pc w = Called c →
           is_Some (c_request c).

(** The two bounds of the cooperative loop for [n] threads. *)
Definition aloop_within_bounds (n : Z) (l : aloop) : Prop :=
  threads (l_self l) = n ∧
  Z.of_nat (flying_count l) ≤ Z.max 0 n ∧
  Z.of_nat (length (l_tasks l)) ≤ Z.max 0 (n * 20).

(** ** Further concrete inputs *)

(** A command line with [--config storm.json]. *)
Definition sample_args : Args :=
  {| arg_url := "https://127.0.0.1:8443/"; arg_duration := 10;
     arg_requests := 0; arg_threads := 50; arg_rps := 0;
     arg_method := "GET"; arg_timeout := (10 # 1)%Q;
     arg_use_async := false; arg_stealth := false;
     arg_random_delay := false; arg_config := Some "storm.json";
     arg_no_ssl_verify := false |}.

(** The object [main] builds from a command line without [--config]:
    no custom headers, payloads or proxies. *)
Definition cli_storm (verb : string) (ceiling dur workers : Z) : HTTPStorm :=
  match init (build_config
                {| arg_url := "https://127.0.0.1:8443/"; arg_duration := dur;
                   arg_requests := ceiling; arg_threads := workers;
                   arg_rps := 0; arg_method := verb;
                   arg_timeout := (10 # 1)%Q; arg_use_async := false;
                   arg_stealth := false; arg_random_delay := false;
                   arg_config := None; arg_no_ssl_verify := false |}) with
  | Ok self => self
  | Raise _ => sample_storm verb ceiling dur
  end.

(** An object whose [user_agents] list is empty. *)
Definition agentless_storm : HTTPStorm :=
  {| url := "http://127.0.0.1/"; duration := 1; requests := 0; threads := 1;
     rps := 0; method := "GET"; headers := ∅; payloads := [];
     user_agents := []; proxies := []; stealth := false;
     random_delay := false; verify_ssl := true; timeout := 1%Q;
     stats := initial_stats; running := true |}.

(** A schedule of the cooperative mode in which the [stop_storm] thread
    wakes late, two milliseconds after the first second, while a task is
    under way; the task completes, and then the loop takes its next
    turn. *)
Definition stopped_schedule : list event :=
  [Turn 1; Step 2 0 (answer (Responded 200 7)); Turn 3;
   Step 40000 0 (answer (Responded 200 7)); Turn 40001;
   Step 960000 1 (answer (Responded 200 7));
   Wake 1002000;
   Step 1002500 1 (answer (Responded 200 7));
   Turn 1003000].

(** A schedule of the cooperative mode that is interrupted while two tasks
    hold the semaphore and a third waits for it. *)
Definition interrupted_schedule : list event :=
  [Turn 1; Turn 2; Turn 3; Step 4 0 (answer (Responded 200 7));
   Step 5 1 (answer (Responded 200 7));
   Step 6 2 (answer (Responded 200 7)); CtrlC 7].
(** * Properties *)

(** ** Frame: an attempt only writes [self.stats] *)

Lemma with_stats_stats self : with_stats (stats self) self = self.
Proof. by destruct self. Qed.

Lemma with_stats_twice st st' self :
  with_stats st (with_stats st' self) = with_stats st self.
Proof. done. Qed.

Lemma make_request_except_frame self e :
  fst (make_request_except self e)
  = with_stats (stats (fst (make_request_except self e))) self.
Proof. unfold make_request_except. by destruct (exn_requests_timeout e). Qed.

Lemma make_request_leave_frame self c t x :
  fst (make_request_leave self c t x)
  = with_stats (stats (fst (make_request_leave self c t x))) self.
Proof.
  unfold make_request_leave.
  repeat case_match; simplify_eq; simpl; by rewrite ?with_stats_stats.
Qed.

Lemma make_request_frame self now returned o :
  a_self (make_request self now returned o)
  = with_stats (stats (a_self (make_request self now returned o))) self.
Proof.
  unfold make_request.
  destruct (running self); simpl; [|by rewrite with_stats_stats].
  destruct (make_request_enter self now o) as [c|e].
  - pose proof (make_request_leave_frame self c returned (o_exchange o)) as Hl.
    destruct (make_request_leave self c returned (o_exchange o)) as [s1 [r|e]];
      simpl in *.
    + done.
    + pose proof (make_request_except_frame s1 e) as He.
      destruct (make_request_except s1 e) as [s2 r]; simpl in *.
      rewrite He, Hl. done.
  - pose proof (make_request_except_frame self e) as He.
    by destruct (make_request_except self e).
Qed.

Lemma async_worker_leave_frame self c t x :
  fst (async_worker_leave self c t x)
  = with_stats (stats (fst (async_worker_leave self c t x))) self.
Proof. destruct x; simpl; [done | by rewrite with_stats_stats]. Qed.

Lemma async_worker_frame self now returned o :
  fst (async_worker self now returned o)
  = with_stats (stats (fst (async_worker self now returned o))) self.
Proof.
  unfold async_worker.
  destruct (async_worker_enter self now o) as [c|e]; [|done].
  pose proof (async_worker_leave_frame self c returned (o_exchange o)) as Hl.
  destruct (async_worker_leave self c returned (o_exchange o)) as [s1 [r|e]];
    simpl in *; [done|].
  rewrite Hl. done.
Qed.

(** ** Effect of each path on the counters *)

Lemma make_request_enter_request self now o c :
  method_supported self = true →
  make_request_enter self now o = Ok c →
  ∃ rq, c_request c = Some rq ∧ rq_at rq = c_start_time c.
Proof.
  unfold method_supported, make_request_enter, res_bind.
  intros Hm Hc.
  repeat case_match; simplify_eq; simpl in *;
    repeat case_match; simplify_eq; eauto.
Qed.

Lemma make_request_except_timeout self e :
  exn_requests_timeout e = true →
  make_request_except self e
  = (with_stats (incr_failed (incr_timeouts (incr_total (stats self)))) self,
     RetTimeout).
Proof. unfold make_request_except. by intros ->. Qed.

Lemma make_request_except_other self e :
  exn_requests_timeout e = false →
  make_request_except self e
  = (with_stats (count_error (exn_name e)
                   (incr_failed (incr_total (stats self)))) self,
     RetError (exn_str e)).
Proof. unfold make_request_except. by intros ->. Qed.

Lemma make_request_except_counted self e :
  counted_once (stats self) (stats (fst (make_request_except self e))).
Proof.
  unfold counted_once, make_request_except.
  destruct (exn_requests_timeout e); simpl; lia.
Qed.

Lemma record_response_counted st rt status_code content_len pl :
  counted_once st
    (fst (record_response st rt (Some (status_code, content_len)) pl)).
Proof.
  unfold counted_once, record_response.
  destruct (payload_truthy pl), (status_code <? 400); simpl; lia.
Qed.

Lemma make_request_counted self now returned o :
  running self = true →
  method_supported self = true →
  counted_once (stats self) (stats (a_self (make_request self now returned o))).
Proof.
  intros Hrun Hm. unfold make_request. rewrite Hrun. simpl.
  destruct (make_request_enter self now o) as [c|e] eqn:Hc.
  - destruct (make_request_enter_request _ _ _ _ Hm Hc) as (rq & Hrq & _).
    unfold make_request_leave. rewrite Hrq.
    destruct (o_exchange o) as [status_code content_len|e].
    + pose proof (record_response_counted (stats self)
                    (returned - c_start_time c) status_code content_len
                    (c_payload c)) as H.
      unfold record_response in *. simpl in *. exact H.
    + pose proof (make_request_except_counted self e) as H.
      by destruct (make_request_except self e).
  - pose proof (make_request_except_counted self e) as H.
    by destruct (make_request_except self e).
Qed.

Lemma async_worker_counted self now returned o :
  counted_once (stats self) (stats (fst (async_worker self now returned o))).
Proof.
  unfold async_worker.
  destruct (async_worker_enter self now o) as [c|e].
  - destruct (o_exchange o) as [status_code content_len|e]; simpl.
    + unfold counted_once. destruct (status_code <? 400); simpl; lia.
    + unfold counted_once. simpl. lia.
  - unfold counted_once. simpl. lia.
Qed.

Lemma perform_frame self op :
  perform self op = with_stats (stats (perform self op)) self.
Proof.
  destruct op; [apply make_request_frame | apply async_worker_frame].
Qed.

Lemma perform_counted self op :
  running self = true →
  method_supported self = true →
  counted_once (stats self) (stats (perform self op)).
Proof.
  intros Hrun Hm. destruct op; simpl.
  - by apply make_request_counted.
  - apply async_worker_counted.
Qed.

(** With a supported method, any sequence of completed operations keeps
    the partition: the total grows by the number of operations and so does
    [successful + failed]. *)
Lemma operations_partition ops : ∀ self,
  running self = true →
  method_supported self = true →
  let st' := stats (foldl perform self ops) in
  total_requests st' = total_requests (stats self) + Z.of_nat (length ops) ∧
  successful st' + failed st'
  = successful (stats self) + failed (stats self) + Z.of_nat (length ops).
Proof.
  induction ops as [|op ops IH]; intros self Hrun Hm; simpl.
  - lia.
  - pose proof (perform_counted self op Hrun Hm) as (Ht & Hsf).
    pose proof (perform_frame self op) as Hfr.
    destruct (IH (perform self op)) as (IHt & IHsf).
    + by rewrite Hfr.
    + by rewrite Hfr.
    + lia.
Qed.

(** ** C1: the partition of the attempts *)

(** With a supported method, any sequence of completed operations keeps
    the partition (see [operations_partition]).  With any other method the
    locked block of lines 132-145 raises at line 135, after line 133 has
    counted the attempt, and the handler of lines 160-165 counts it again. *)

(** C1 (the code departs from it): when [self.method.upper()] is neither
    GET nor POST, a completed [make_request] call moves [total_requests] by
    two and [successful + failed] by one, so [successful + failed] no
    longer equals [total_requests]. *)
Theorem C1_unsupported_method_counted_twice self now returned o c :
  running self = true →
  method_supported self = false →
  make_request_enter self now o = Ok c →
  let st' := stats (a_self (make_request self now returned o)) in
  total_requests st' = total_requests (stats self) + 2 ∧
  successful st' + failed st'
  = successful (stats self) + failed (stats self) + 1.
Proof.
  intros Hrun Hm Hc. unfold make_request. rewrite Hrun, Hc. simpl.
  assert (c_request c = None) as Hrq.
  { revert Hm Hc. unfold method_supported, make_request_enter, res_bind.
    intros Hm Hc. repeat case_match; simplify_eq; simpl in *;
      repeat case_match; simplify_eq; done. }
  unfold make_request_leave. rewrite Hrq. simpl. lia.
Qed.

Lemma C1_unsupported_method_counted_twice_witness :
  running (sample_storm "PUT" 0 10) = true ∧
  method_supported (sample_storm "PUT" 0 10) = false ∧
  total_requests (stats (a_self (make_request (sample_storm "PUT" 0 10)
                                   0 50000 (answer (Responded 200 7))))) = 2 ∧
  successful (stats (a_self (make_request (sample_storm "PUT" 0 10)
                               0 50000 (answer (Responded 200 7)))))
  + failed (stats (a_self (make_request (sample_storm "PUT" 0 10)
                             0 50000 (answer (Responded 200 7))))) = 1.
Proof.
  split; [reflexivity|]. split; [reflexivity|].
  exact (C1_unsupported_method_counted_twice (sample_storm "PUT" 0 10)
           0 50000 (answer (Responded 200 7)) _ eq_refl eq_refl eq_refl).
Defined.

(** ** C2: timeouts *)

(** In [make_request], an exchange that raises a
    [requests.exceptions.Timeout] moves [timeouts] and [failed] by one and
    leaves [successful] alone. *)
Lemma make_request_timeout self now returned o c rq e :
  running self = true →
  make_request_enter self now o = Ok c →
  c_request c = Some rq →
  o_exchange o = Failed e →
  exn_requests_timeout e = true →
  let a := make_request self now returned o in
  a_ret a = RetTimeout ∧
  stats (a_self a) = incr_failed (incr_timeouts (incr_total (stats self))).
Proof.
  intros Hrun Hc Hrq Hx He. unfold make_request.
  rewrite Hrun, Hc. simpl. unfold make_request_leave. rewrite Hrq, Hx.
  by rewrite make_request_except_timeout.
Qed.

(** In [make_request], the [timeouts] counter moves only on that path. *)
Lemma make_request_timeouts_only_on_timeout self now returned o :
  let a := make_request self now returned o in
  timeouts (stats (a_self a)) = timeouts (stats self) ∨
  (a_ret a = RetTimeout ∧
   timeouts (stats (a_self a)) = timeouts (stats self) + 1).
Proof.
  unfold make_request, make_request_leave, make_request_except,
    record_response.
  repeat case_match; simplify_eq; simpl; auto.
Qed.

(** C2 (the code departs from it): [async_worker] has no handler of its own
    for a timeout.  An exchange that raises, whatever the exception, moves
    [failed] and the bucket of the exception's class name; the [timeouts]
    counter stays as it was. *)
Theorem C2_async_worker_timeout_not_counted self now returned o c e :
  async_worker_enter self now o = Ok c →
  o_exchange o = Failed e →
  let st' := stats (fst (async_worker self now returned o)) in
  timeouts st' = timeouts (stats self) ∧
  failed st' = failed (stats self) + 1 ∧
  errors st' = count_key (exn_name e) (errors (stats self)).
Proof.
  intros Hc Hx. unfold async_worker. rewrite Hc. simpl. by rewrite Hx.
Qed.

Lemma C2_async_worker_timeout_not_counted_witness :
  o_exchange (answer (Failed asyncio_TimeoutError))
  = Failed asyncio_TimeoutError ∧
  timeouts (stats (fst (async_worker (sample_storm "GET" 0 10) 0 10000000
                          (answer (Failed asyncio_TimeoutError))))) = 0 ∧
  failed (stats (fst (async_worker (sample_storm "GET" 0 10) 0 10000000
                        (answer (Failed asyncio_TimeoutError))))) = 1 ∧
  errors (stats (fst (async_worker (sample_storm "GET" 0 10) 0 10000000
                        (answer (Failed asyncio_TimeoutError)))))
  = {[ "TimeoutError" := 1 ]}.
Proof.
  split; [reflexivity|].
  exact (C2_async_worker_timeout_not_counted (sample_storm "GET" 0 10)
           0 10000000 (answer (Failed asyncio_TimeoutError)) _
           asyncio_TimeoutError eq_refl eq_refl).
Defined.

(** No path of [async_worker] writes [timeouts]. *)
Lemma async_worker_timeouts self now returned o :
  timeouts (stats (fst (async_worker self now returned o)))
  = timeouts (stats self).
Proof.
  unfold async_worker, async_worker_leave, async_worker_except.
  repeat case_match; simplify_eq; simpl; done.
Qed.

(** ** C3: what the response time covers *)

Lemma uniform_lower lo hi r : lo ≤ hi → lo ≤ uniform lo hi r.
Proof.
  intros H. unfold uniform.
  pose proof (Z.mod_pos_bound (Z.of_nat r) (hi - lo + 1)). lia.
Qed.

(** In [make_request] the clock is read when the call is made: the
    recorded time is the time from the call to its return. *)
Lemma make_request_response_time self now returned o c rq status_code len :
  running self = true →
  make_request_enter self now o = Ok c →
  c_request c = Some rq →
  o_exchange o = Responded status_code len →
  response_times (stats (a_self (make_request self now returned o)))
  = response_times (stats self) ++ [returned - rq_at rq].
Proof.
  intros Hrun Hc Hrq Hx.
  assert (rq_at rq = c_start_time c) as ->.
  { revert Hc Hrq. unfold make_request_enter, res_bind. intros Hc Hrq.
    repeat case_match; simplify_eq; simpl in *;
      repeat case_match; simplify_eq; done. }
  unfold make_request. rewrite Hrun, Hc. simpl.
  unfold make_request_leave. rewrite Hrq, Hx. simpl.
  by destruct (payload_truthy (c_payload c)), (status_code <? 400).
Qed.

(** C3 (the code departs from it): with the random delay on, [async_worker]
    reads the clock before it sleeps.  The time it appends is the time of
    the exchange plus the time slept, which is at least 10 ms. *)
Theorem C3_async_response_time_includes_delay
    self now returned o c status_code len :
  random_delay self = true →
  async_worker_enter self now o = Ok c →
  o_exchange o = Responded status_code len →
  ∃ rq slept,
    snd (async_worker self now returned o) = [rq] ∧
    10000 ≤ slept ∧
    rq_at rq = now + slept ∧
    response_times (stats (fst (async_worker self now returned o)))
    = response_times (stats self) ++ [(returned - rq_at rq) + slept].
Proof.
  intros Hd Hc Hx. unfold async_worker. rewrite Hc. simpl. rewrite Hx.
  revert Hc. unfold async_worker_enter, res_bind. rewrite Hd.
  destruct (get_random_headers self (o_draws o)) as [hdrs|]; [|done].
  intros [= <-]. simpl.
  eexists _, (uniform 10000 200000 (d_delay (o_draws o))
              + Z.of_N (o_overslept o)).
  split; [reflexivity|]. simpl.
  pose proof (uniform_lower 10000 200000 (d_delay (o_draws o))).
  split; [lia|]. split; [done|].
  destruct (status_code <? 400); simpl; do 2 f_equal; lia.
Qed.

Lemma C3_async_response_time_includes_delay_witness :
  random_delay (sample_storm "GET" 0 10) = true ∧
  o_exchange (answer (Responded 200 7)) = Responded 200 7 ∧
  ∃ rq slept,
    snd (async_worker (sample_storm "GET" 0 10) 0 60000
           (answer (Responded 200 7))) = [rq] ∧
    10000 ≤ slept ∧
    rq_at rq = 0 + slept ∧
    response_times (stats (fst (async_worker (sample_storm "GET" 0 10) 0 60000
                                  (answer (Responded 200 7)))))
    = response_times (stats (sample_storm "GET" 0 10))
      ++ [(60000 - rq_at rq) + slept].
Proof.
  split; [reflexivity|]. split; [reflexivity|].
  exact (C3_async_response_time_includes_delay (sample_storm "GET" 0 10)
           0 60000 (answer (Responded 200 7)) _ 200 7%nat
           eq_refl eq_refl eq_refl).
Defined.

(** ** C4: [bytes_sent] *)

(** C4 (the code departs from it): [make_request] tests [if payload:], not
    the method.  A GET whose drawn payload is truthy is sent without a body
    and still adds [len(str(payload))] to [bytes_sent]. *)
Theorem C4_get_counts_payload_not_sent
    self now returned o c status_code len :
  running self = true →
  upper (method self) = "GET" →
  make_request_enter self now o = Ok c →
  payload_truthy (c_payload c) = true →
  o_exchange o = Responded status_code len →
  let a := make_request self now returned o in
  bytes_sent (stats (a_self a))
  = bytes_sent (stats self) + payload_str_len (c_payload c) ∧
  ∃ rq, a_sent a = [rq] ∧ rq_verb rq = "GET" ∧ rq_data rq = None.
Proof.
  intros Hrun Hm Hc Hp Hx.
  assert (∃ rq, c_request c = Some rq ∧ rq_verb rq = "GET" ∧ rq_data rq = None)
    as (rq & Hrq & Hverb & Hdata).
  { revert Hc. unfold make_request_enter, res_bind. rewrite Hm. simpl.
    intros Hc. repeat case_match; simplify_eq; simpl; eauto. }
  unfold make_request. rewrite Hrun, Hc. simpl.
  unfold make_request_leave, sent_of. rewrite Hrq, Hx. simpl. rewrite Hp.
  split; [|by eauto].
  by destruct (status_code <? 400).
Qed.

Lemma C4_get_counts_payload_not_sent_witness :
  running (sample_storm "GET" 0 10) = true ∧
  upper (method (sample_storm "GET" 0 10)) = "GET" ∧
  o_exchange (answer (Responded 200 7)) = Responded 200 7 ∧
  bytes_sent (stats (a_self (make_request (sample_storm "GET" 0 10) 0 60000
                               (answer (Responded 200 7))))) = 0 + 3 ∧
  ∃ rq, a_sent (make_request (sample_storm "GET" 0 10) 0 60000
                  (answer (Responded 200 7))) = [rq] ∧
        rq_verb rq = "GET" ∧ rq_data rq = None.
Proof.
  split; [reflexivity|]. split; [reflexivity|]. split; [reflexivity|].
  exact (C4_get_counts_payload_not_sent (sample_storm "GET" 0 10) 0 60000
           (answer (Responded 200 7)) _ 200 7%nat
           eq_refl eq_refl eq_refl eq_refl eq_refl).
Defined.

(** ** C5: custom headers against the stealth block *)

Lemma stealth_headers_lookup d (h : gmap string string) k :
  stealth_headers d h !! k
  = match stealth_value d k with
    | Some s => Some s
    | None => h !! k
    end.
Proof.
  unfold stealth_headers, stealth_value.
  destruct (String.eqb_spec k "DNT") as [->|Hdnt];
    [|destruct (String.eqb_spec k "X-Real-IP") as [->|Hreal];
      [|destruct (String.eqb_spec k "X-Forwarded-For") as [->|Hfwd]]];
    repeat case_match;
    rewrite ?lookup_insert_eq, ?lookup_insert_ne by done;
    rewrite ?lookup_insert_eq, ?lookup_insert_ne by done;
    rewrite ?lookup_insert_eq, ?lookup_insert_ne by done;
    done.
Qed.

(** C5 (amended): a key of the custom headers keeps the operator's value
    against the randomized baseline; a stealth header that is drawn is
    written after the custom headers and replaces the operator's value for
    X-Forwarded-For, X-Real-IP or DNT. *)
Theorem C5_custom_headers_precedence self d h k v :
  get_random_headers self d = Ok h →
  headers self !! k = Some v →
  h !! k = Some (if stealth self then default v (stealth_value d k) else v).
Proof.
  unfold get_random_headers, res_bind. intros Hh Hk.
  repeat case_match; simplify_eq;
    try (match goal with
         | H : bool_decide _ = true |- _ =>
             apply bool_decide_eq_true_1 in H; rewrite H in Hk;
             by rewrite lookup_empty in Hk
         end).
  - rewrite stealth_headers_lookup.
    destruct (stealth_value d k); simpl; [done|].
    by apply lookup_union_Some_l.
  - by apply lookup_union_Some_l.
Qed.

Lemma C5_custom_headers_precedence_witness :
  headers (sample_storm "GET" 0 10) !! "DNT" = Some "0" ∧
  ∃ h, get_random_headers (sample_storm "GET" 0 10) quiet_draws = Ok h ∧
       h !! "DNT" = Some "0".
Proof.
  split; [reflexivity|]. eexists. split; [reflexivity|].
  exact (C5_custom_headers_precedence (sample_storm "GET" 0 10) quiet_draws
           _ "DNT" "0" eq_refl eq_refl).
Defined.

(** C5 as stated fails: the operator sets DNT to 0, stealth is on and the
    DNT draw is below 0.4; the headers returned carry DNT = 1. *)
Lemma C5_stealth_overwrites_custom_header :
  ∃ h, get_random_headers (sample_storm "GET" 0 10) eager_draws = Ok h ∧
       headers (sample_storm "GET" 0 10) !! "DNT" = Some "0" ∧
       h !! "DNT" = Some "1" ∧
       h !! "DNT" ≠ headers (sample_storm "GET" 0 10) !! "DNT".
Proof.
  eexists. split; [reflexivity|]. split; [reflexivity|].
  split; [reflexivity|]. vm_compute. discriminate.
Qed.

(** ** C6: the class of a response *)

Lemma choice_nonempty {A} (seq : list A) r :
  seq ≠ [] → ∃ x, choice seq r = Ok x.
Proof.
  intros Hne. unfold choice.
  destruct (seq !! (r mod length seq)%nat) as [x|] eqn:Hl; [by eauto|].
  apply lookup_ge_None in Hl.
  assert (length seq ≠ 0%nat) by (by destruct seq).
  pose proof (Nat.mod_upper_bound r (length seq)). lia.
Qed.

Lemma get_random_headers_ok self d :
  user_agents self ≠ [] → ∃ h, get_random_headers self d = Ok h.
Proof.
  intros Hne. unfold get_random_headers, res_bind.
  destruct (choice_nonempty (user_agents self) (d_user_agent d) Hne)
    as [ua ->].
  destruct (choice_nonempty accept_options (d_accept d)) as [a ->]; [done|].
  destruct (choice_nonempty language_options (d_language d)) as [l ->];
    [done|].
  destruct (choice_nonempty ["keep-alive"; "close"] (d_connection d))
    as [cn ->]; [done|].
  destruct (choice_nonempty ["no-cache"; "max-age=0"; "no-store"] (d_cache d))
    as [ch ->]; [done|].
  eauto.
Qed.

Lemma make_request_enter_ok self now o :
  user_agents self ≠ [] → ∃ c, make_request_enter self now o = Ok c.
Proof.
  intros Hne. unfold make_request_enter, res_bind.
  destruct (get_random_headers_ok self (o_draws o) Hne) as [h ->].
  assert (∃ pl, get_random_payload self (o_draws o) = Ok pl) as [pl ->].
  { unfold get_random_payload, res_bind.
    destruct (payloads self) as [|p ps] eqn:Hp; [by eauto|].
    destruct (choice_nonempty (p :: ps) (d_payload (o_draws o))) as [x ->];
      [done|by eauto]. }
  destruct (proxies self) as [|p ps] eqn:Hp; [by eauto|].
  destruct (choice_nonempty (p :: ps) (d_proxy (o_draws o))) as [x ->];
    [done|by eauto].
Qed.





(** ** C8: the report of a run without attempts *)






(** C8: when [total_requests] is zero, [print_final_report] prints the
    no-requests message and returns; it raises nothing, although the
    division by the total that the other branch starts with would raise
    on these counters. *)
Theorem C8_no_requests_report self now :
  total_requests (stats self) = 0 →
  print_final_report self now = Ok NoRequestsCompleted ∧
  truediv (inject_Z (successful (stats self)))
          (inject_Z (total_requests (stats self)))
  = Raise ZeroDivisionError.
Proof.
  intros H. unfold print_final_report. by rewrite H.
Qed.

Lemma C8_no_requests_report_witness :
  total_requests (stats (sample_storm "GET" 0 10)) = 0 ∧
  print_final_report (sample_storm "GET" 0 10) 10000000
  = Ok NoRequestsCompleted ∧
  truediv (inject_Z (successful (stats (sample_storm "GET" 0 10))))
          (inject_Z (total_requests (stats (sample_storm "GET" 0 10))))
  = Raise ZeroDivisionError.
Proof.
  split; [reflexivity|].
  exact (C8_no_requests_report (sample_storm "GET" 0 10) 10000000 eq_refl).
Defined.



(** ** C9: the TLS-verify flag *)

Lemma make_request_sent_verify self now returned o rq :
  rq ∈ a_sent (make_request self now returned o) →
  rq_verify rq = Some (verify_ssl self).
Proof.
  unfold make_request, make_request_enter, sent_of, res_bind.
  repeat (case_match; simplify_eq; simpl in *);
    intros Hin; try (by apply elem_of_nil in Hin);
    by apply list_elem_of_singleton in Hin; subst.
Qed.

(** C9 (amended): when the mapping has no TLS-verify key, [HTTPStorm]
    takes the flag as off and every call [make_request] makes passes
    [verify=False]; the flag is on by default on the command line, where
    [main] always writes the key, as [not args.no_ssl_verify]. *)
Theorem C9_verify_flag_default config self :
  cm_verify_ssl config = None →
  init config = Ok self →
  verify_ssl self = false ∧
  (∀ now returned o rq,
     rq ∈ a_sent (make_request self now returned o) →
     rq_verify rq = Some false) ∧
  (∀ args, cm_verify_ssl (build_config args)
           = Some (negb (arg_no_ssl_verify args))).
Proof.
  intros Hv Hi.
  assert (verify_ssl self = false) as Hoff.
  { revert Hi. unfold init, res_bind, subscript.
    repeat case_match; simplify_eq; intros [= <-]; simpl. by rewrite Hv. }
  split; [done|]. split; [|done].
  intros now returned o rq Hin. rewrite <- Hoff.
  by eapply make_request_sent_verify.
Qed.

Lemma C9_verify_flag_default_witness :
  cm_verify_ssl (sample_config "GET" 0 10) = None ∧
  init (sample_config "GET" 0 10) = Ok (sample_storm "GET" 0 10) ∧
  verify_ssl (sample_storm "GET" 0 10) = false ∧
  (∀ now returned o rq,
     rq ∈ a_sent (make_request (sample_storm "GET" 0 10) now returned o) →
     rq_verify rq = Some false) ∧
  (∀ args, cm_verify_ssl (build_config args)
           = Some (negb (arg_no_ssl_verify args))).
Proof.
  split; [reflexivity|]. split; [reflexivity|].
  exact (C9_verify_flag_default (sample_config "GET" 0 10)
           (sample_storm "GET" 0 10) eq_refl eq_refl).
Defined.

(** C9 as stated fails: a mapping without the key gives an object whose
    flag is off, and the GET it sends carries [verify=False]. *)
Lemma C9_absent_flag_verification_off :
  cm_verify_ssl (sample_config "GET" 0 10) = None ∧
  ∃ self rq,
    init (sample_config "GET" 0 10) = Ok self ∧
    verify_ssl self = false ∧
    a_sent (make_request self 0 60000 (answer (Responded 200 7))) = [rq] ∧
    rq_verify rq = Some false.
Proof.
  split; [reflexivity|]. eexists _, _.
  split; [reflexivity|]. split; [reflexivity|].
  split; reflexivity.
Qed.

(** On the command line the flag is on unless [--no-ssl-verify] is given
    or the configuration file sets the key. *)
Lemma main_verify_ssl args load_config self use_async :
  main args load_config = Storm (Ok self) use_async →
  (∀ path, cm_verify_ssl (load_config path) = None) →
  verify_ssl self = negb (arg_no_ssl_verify args).
Proof.
  unfold main. intros Hm Hfile.
  destruct (negb _); [done|].
  injection Hm as Hi _. revert Hi.
  destruct (arg_config args) as [path|]; [destruct (String.eqb path "")|];
    unfold init, res_bind, subscript;
    repeat case_match; simplify_eq; intros [= <-]; simpl; try done.
  by rewrite Hfile.
Qed.

(** ** Invariants of the cooperative loop *)

Section AsyncLoopInvariant.
Variable deadline : option Z.
Variable P : aloop → Prop.
Hypothesis P_step : ∀ l t i o, P l → P (async_task_step l t i o).
Hypothesis P_turn : ∀ l l', P l → async_storm_turn l = Some l' → P l'.
Hypothesis P_stop :
  ∀ l, is_Some deadline → P l → P (aloop_set_running false l).

Lemma async_loop_invariant evs : ∀ l l' now how,
  P l → async_loop deadline l evs = Some (l', now, how) → P l'.
Proof using P_step P_turn P_stop.
  induction evs as [|e evs IH]; intros l l' now how Hl; simpl; [done|].
  destruct e as [t i o|t|t|t].
  - apply IH. by apply P_step.
  - destruct (async_storm_turn _) as [l1|] eqn:Hturn.
    + apply IH. by eapply P_turn.
    + by intros [= <- _ _].
  - apply IH. unfold stop_storm. destruct deadline as [dl|]; [|done].
    destruct (dl <=? t); [|done]. apply P_stop; [by eexists|done].
  - by intros [= <- _ _].
Qed.
End AsyncLoopInvariant.


(** ** C10: what the cooperative mode sends *)

Lemma async_worker_enter_plain_get self t o c :
  async_worker_enter self t o = Ok c → Forall plain_get (sent_of c).
Proof.
  unfold async_worker_enter, res_bind.
  destruct (get_random_headers self (o_draws o)); [|done].
  intros [= <-]. unfold sent_of. simpl.
  apply Forall_cons. split; [done|apply Forall_nil_2].
Qed.

Lemma async_worker_leave_bytes_sent self c t x :
  bytes_sent (stats (fst (async_worker_leave self c t x)))
  = bytes_sent (stats self).
Proof. destruct x; simpl; [by destruct (_ <? _)|done]. Qed.

Lemma async_task_step_sends_nothing b l t i o :
  async_sends_nothing b l → async_sends_nothing b (async_task_step l t i o).
Proof.
  unfold async_sends_nothing, async_task_step. intros [Hsent Hb].
  destruct (l_created l !! i) as [[|c|]|]; try done.
  - destruct (semaphore_free l); [|done].
    destruct (async_worker_enter (l_self l) t o) as [c|e] eqn:Hc; simpl.
    + split; [|done]. apply Forall_app. split; [done|].
      by eapply async_worker_enter_plain_get.
    + done.
  - simpl. split; [done|].
    pose proof (async_worker_leave_bytes_sent (l_self l) c t (o_exchange o))
      as Hl.
    destruct (async_worker_leave (l_self l) c t (o_exchange o)) as [s1 [r|e]];
      simpl in *; congruence.
Qed.

Lemma async_storm_turn_sends_nothing b l l' :
  async_sends_nothing b l → async_storm_turn l = Some l' →
  async_sends_nothing b l'.
Proof.
  unfold async_sends_nothing, async_storm_turn. intros [Hsent Hb].
  destruct (worker_continues (l_self l)); [|done].
  intros [= <-]. by destruct (_ <? _).
Qed.

Lemma async_storm_sends_nothing deadline self evs l now how :
  async_storm deadline self evs = Some (Ok (l, now, how)) →
  async_sends_nothing (bytes_sent (stats self)) l.
Proof.
  unfold async_storm. destruct (threads self <? 0); [done|].
  destruct (async_loop _ _ evs) as [[[l' now'] how']|] eqn:Hloop; [|done].
  intros [= -> -> ->].
  eapply (async_loop_invariant deadline
            (async_sends_nothing (bytes_sent (stats self)))); [| | | |exact Hloop].
  - apply async_task_step_sends_nothing.
  - apply async_storm_turn_sends_nothing.
  - by intros l0 _ [? ?].
  - split; [apply Forall_nil_2|done].
Qed.

(** C10: in the cooperative mode every call into the HTTP layer is a GET
    without body, proxy or [verify] argument, whatever the method, the
    payloads and the proxies are, and [bytes_sent] is never moved: this
    holds of one [async_worker] and of every run of [start_storm] in that
    mode. *)
Theorem C10_async_mode_plain_get self :
  (∀ now returned o,
     Forall plain_get (snd (async_worker self now returned o)) ∧
     bytes_sent (stats (fst (async_worker self now returned o)))
     = bytes_sent (stats self)) ∧
  (∀ t0 evs r,
     start_storm self true t0 evs = Some (Ok r) →
     Forall plain_get (r_sent r) ∧
     bytes_sent (stats (r_self r)) = bytes_sent (stats self)).
Proof.
  split.
  - intros now returned o. unfold async_worker.
    destruct (async_worker_enter self now o) as [c|e] eqn:Hc; simpl.
    + pose proof (async_worker_enter_plain_get _ _ _ _ Hc) as Hplain.
      pose proof (async_worker_leave_bytes_sent self c returned (o_exchange o))
        as Hl.
      destruct (async_worker_leave self c returned (o_exchange o))
        as [s1 [r|e]]; simpl in *; done.
    + split; [apply Forall_nil_2|done].
  - intros t0 evs r. unfold start_storm, dispatch. simpl.
    intros Hr.
    repeat (case_match; simplify_eq; simpl in * );
      match goal with
      | H : async_storm _ _ _ = Some (Ok _) |- _ =>
          apply async_storm_sends_nothing in H; destruct H as [? ?]; done
      end.
Qed.

Lemma C10_async_mode_plain_get_witness :
  ∃ r, start_storm (sample_storm "POST" 2 10) true 0 sample_async_schedule
       = Some (Ok r) ∧
       length (r_sent r) = 2%nat ∧
       total_requests (stats (r_self r)) = 2 ∧
       Forall plain_get (r_sent r) ∧
       bytes_sent (stats (r_self r))
       = bytes_sent (stats (sample_storm "POST" 2 10)).
Proof.
  eexists. split; [vm_compute; reflexivity|].
  split; [reflexivity|]. split; [reflexivity|].
  refine (proj2 (C10_async_mode_plain_get (sample_storm "POST" 2 10))
            0 sample_async_schedule _ _).
  vm_compute. reflexivity.
Defined.

(** ** Invariants of the thread pool *)

Section JoinAllInvariant.
Variable P : pool → Prop.
Hypothesis P_step : ∀ p t i o, P p → P (pool_step p t i o).

Lemma join_all_invariant evs : ∀ p now p' now' how,
  P p → join_all p now evs = Some (p', now', how) → P p'.
Proof using P_step.
  induction evs as [|e evs IH]; intros p now p' now' how Hp; simpl.
  - destruct (forallb has_exited (p_workers p)); [|done].
    by intros [= <- _ _].
  - destruct (forallb has_exited (p_workers p)); [by intros [= <- _ _]|].
    destruct e as [t i o|t|t|t].
    + apply IH. by apply P_step.
    + by apply IH.
    + by apply IH.
    + by intros [= <- _ _].
Qed.
End JoinAllInvariant.


Lemma make_request_leave_total self c t x :
  total_requests (stats self)
  ≤ total_requests (stats (fst (make_request_leave self c t x))).
Proof.
  unfold make_request_leave, record_response.
  repeat case_match; simplify_eq; simpl; lia.
Qed.

Lemma make_request_except_total self e :
  total_requests (stats self)
  ≤ total_requests (stats (fst (make_request_except self e))).
Proof. destruct (make_request_except_counted self e). lia. Qed.

(** One step of a worker: only the statistics are written, the total does
    not go down, and the worker leaves its loop only at the loop test. *)
Lemma worker_thread_step_facts self w t o self' w' rqs :
  worker_thread_step self w t o = (self', w', rqs) →
  self' = with_stats (stats self') self ∧
  total_requests (stats self) ≤ total_requests (stats self') ∧
  (has_exited w' = true →
   has_exited w = true ∨ (worker_continues self = false ∧ self' = self)).
Proof.
  unfold worker_thread_step, has_exited.
  destruct (w_pc w) as [| |c|c|] eqn:Hpc.
  - destruct (worker_continues self) eqn:Hgo; intros [= <- <- <-]; simpl;
      rewrite with_stats_stats; split_and!; try done; auto.
  - destruct (running self).
    + simpl. destruct (make_request_enter self t o) as [c|e].
      * intros [= <- <- <-]. simpl. by rewrite with_stats_stats.
      * intros [= <- <- <-]. simpl.
        split; [apply make_request_except_frame|].
        split; [apply make_request_except_total|done].
    + simpl. intros [= <- <- <-]. simpl. by rewrite with_stats_stats.
  - intros [= <- <- <-]. simpl. by rewrite with_stats_stats.
  - pose proof (make_request_leave_frame self c t (o_exchange o)) as Hfr.
    pose proof (make_request_leave_total self c t (o_exchange o)) as Htot.
    destruct (make_request_leave self c t (o_exchange o)) as [s1 [r|e]];
      simpl in *; intros [= <- <- <-]; simpl.
    + done.
    + pose proof (make_request_except_frame s1 e) as Hfr'.
      pose proof (make_request_except_total s1 e) as Htot'.
      split; [by rewrite Hfr', Hfr|]. split; [lia|done].
  - intros [= <- <- <-]. rewrite with_stats_stats.
    split; [done|]. split; [lia|auto].
Qed.






(** ** The duration field in request-limited mode *)















(** ** The steps of a worker against [make_request] *)

(** A worker that calls [make_request] while no other thread writes the
    object goes through [make_request]: its three steps leave the object
    that one call of [make_request] leaves and make the same calls. *)
Lemma worker_thread_steps_make_request self w t t1 t' o c :
  w_pc w = Paced →
  running self = true →
  make_request_enter self t o = Ok c →
  ∃ w1 w2 w3,
    worker_thread_step self w t o = (self, w1, []) ∧
    worker_thread_step self w1 t1 o
    = (self, w2, a_sent (make_request self t t' o)) ∧
    worker_thread_step self w2 t' o
    = (a_self (make_request self t t' o), w3, []) ∧
    w_pc w3 = AtHead ∧ requests_made w3 = requests_made w + 1.
Proof.
  intros Hpc Hrun Hc.
  exists {| w_pc := Delayed c; requests_made := requests_made w |},
         {| w_pc := Called c; requests_made := requests_made w |},
         {| w_pc := AtHead; requests_made := requests_made w + 1 |}.
  unfold worker_thread_step, make_request.
  rewrite Hpc, Hrun, Hc. simpl.
  destruct (make_request_leave self c t' (o_exchange o)) as [s1 [r|e]];
    simpl.
  - done.
  - by destruct (make_request_except s1 e) as [s2 r].
Qed.

Lemma worker_thread_step_enter_raises self w t t' o e :
  w_pc w = Paced →
  running self = true →
  make_request_enter self t o = Raise e →
  worker_thread_step self w t o
  = (a_self (make_request self t t' o),
     {| w_pc := AtHead; requests_made := requests_made w + 1 |},
     a_sent (make_request self t t' o)).
Proof.
  intros Hpc Hrun Hc. unfold worker_thread_step, make_request.
  rewrite Hpc, Hrun, Hc. simpl.
  by destruct (make_request_except self e).
Qed.

(** * More properties *)

(** ** [__init__], [load_config] and [main] *)

(** [__init__] succeeds exactly on a mapping that binds the nine keys it
    subscripts ([url], [duration], [threads], [rps], [method], [headers],
    [payloads], [user_agents], [proxies]); the object then starts with
    zeroed statistics and the flag up.  On any other mapping it raises
    [KeyError]. *)
Theorem init_required_keys config :
  match init config with
  | Ok self =>
      required_present config ∧ stats self = initial_stats ∧
      running self = true
  | Raise e => ¬ required_present config ∧ exn_name e = "KeyError"
  end.
Proof.
  unfold init, res_bind, subscript, required_present.
  destruct (cm_url config); [|simpl; split; [|done]; by intros ([? [=]] & _)].
  destruct (cm_duration config);
    [|simpl; split; [|done]; by intros (_ & [? [=]] & _)].
  destruct (cm_threads config);
    [|simpl; split; [|done]; by intros (_ & _ & [? [=]] & _)].
  destruct (cm_rps config);
    [|simpl; split; [|done]; by intros (_ & _ & _ & [? [=]] & _)].
  destruct (cm_method config);
    [|simpl; split; [|done]; by intros (_ & _ & _ & _ & [? [=]] & _)].
  destruct (cm_headers config);
    [|simpl; split; [|done]; by intros (_ & _ & _ & _ & _ & [? [=]] & _)].
  destruct (cm_payloads config);
    [|simpl; split; [|done];
      by intros (_ & _ & _ & _ & _ & _ & [? [=]] & _)].
  destruct (cm_user_agents config);
    [|simpl; split; [|done];
      by intros (_ & _ & _ & _ & _ & _ & _ & [? [=]] & _)].
  destruct (cm_proxies config);
    [|simpl; split; [|done];
      by intros (_ & _ & _ & _ & _ & _ & _ & _ & [? [=]])].
  simpl. split_and!; by eauto.
Qed.

Lemma update_required config file_config :
  required_present config → required_present (update config file_config).
Proof.
  unfold required_present, update. simpl.
  intros (?&?&?&?&?&?&?&?&?).
  split_and!; by case_match.
Qed.

(** On a configuration file that reads as a mapping, [main] comes to an
    object whose URL is the one of the command line. *)
Lemma main_on_mapping args file_config :
  if has_scheme (arg_url args)
  then ∃ self,
         main args file_config = Storm (Ok self) (arg_use_async args) ∧
         url self = arg_url args
  else main args file_config = Exit1.
Proof.
  unfold main, has_scheme.
  destruct (String.prefix "http://" (arg_url args)
            || String.prefix "https://" (arg_url args)); [|done].
  simpl.
  assert (∀ c, required_present c → cm_url c = Some (arg_url args) →
               ∃ self, init c = Ok self ∧ url self = arg_url args) as Hinit.
  { intros c Hreq Hurl. pose proof (init_required_keys c) as H.
    destruct (init c) as [self|e] eqn:Hi; [|by destruct H].
    exists self. split; [done|].
    revert Hi. unfold init, res_bind, subscript. rewrite Hurl.
    repeat case_match; try done. by intros [= <-]. }
  assert (required_present (build_config args)) as Hb.
  { unfold required_present, build_config. simpl. split_and!; by eexists. }
  destruct (arg_config args) as [path|];
    [destruct (String.eqb path "")|].
  - destruct (Hinit (build_config args) Hb eq_refl) as (self & -> & Hu).
    by eauto.
  - destruct (Hinit (update (build_config args)
                       (set_url (arg_url args) (file_config path))))
      as (self & -> & Hu); [by apply update_required|done|by eauto].
  - destruct (Hinit (build_config args) Hb eq_refl) as (self & -> & Hu).
    by eauto.
Qed.

(** [main] exits with status 1 exactly on a URL without [http://] or
    [https://], before it looks at the configuration file.  Otherwise it
    fails exactly when [--config] names a file whose read raises (with
    that exception) or whose JSON is not an object (with a [TypeError]);
    in every other case, whatever keys the file binds, it comes to an
    object, and the object's URL is the one of the command line even when
    the file has a [url] key. *)
Theorem main_url_precedence args file :
  match main_with_file args file with
  | Ok Exit1 => has_scheme (arg_url args) = false
  | Ok (Storm s use_async) =>
      has_scheme (arg_url args) = true ∧ use_async = arg_use_async args ∧
      (∃ self, s = Ok self ∧ url self = arg_url args) ∧
      (∀ path, arg_config args = Some path → path ≠ "" →
               ∃ f c, file path = Reads f ∧ load_config f = Ok c)
  | Raise e =>
      has_scheme (arg_url args) = true ∧
      ∃ path, arg_config args = Some path ∧ path ≠ "" ∧
              (file path = OtherJson ∧ exn_name e = "TypeError"
               ∨ file path = Reads (Failing e))
  end.
Proof.
  pose proof (main_on_mapping args) as Hmain.
  unfold main_with_file. fold (has_scheme (arg_url args)) in *.
  destruct (has_scheme (arg_url args)) eqn:Hs; simpl; [|done].
  assert (∀ c, match main args c with
               | Exit1 => False
               | Storm s use_async =>
                   use_async = arg_use_async args ∧
                   ∃ self, s = Ok self ∧ url self = arg_url args
               end) as Hok.
  { intros c. destruct (Hmain c) as (self & -> & Hu). by eauto. }
  destruct (arg_config args) as [path|] eqn:Hcfg.
  - destruct (String.eqb_spec path "") as [->|Hne].
    + specialize (Hok (λ _, empty_config)).
      destruct (main args _) as [|s a]; [done|].
      destruct Hok as [-> Hself]. split_and!; try done.
      by intros path [= <-].
    + destruct (file path) as [f|] eqn:Hf.
      * destruct f as [| |c|e]; simpl.
        -- specialize (Hok (λ _, empty_config)).
           destruct (main args _) as [|s a]; [done|].
           destruct Hok as [-> Hself]. split_and!; try done.
           intros ? [= <-] _. by eexists _, _.
        -- specialize (Hok (λ _, empty_config)).
           destruct (main args _) as [|s a]; [done|].
           destruct Hok as [-> Hself]. split_and!; try done.
           intros ? [= <-] _. by eexists _, _.
        -- specialize (Hok (λ _, c)).
           destruct (main args _) as [|s a]; [done|].
           destruct Hok as [-> Hself]. split_and!; try done.
           intros ? [= <-] _. by eexists _, _.
        -- split; [done|]. exists path. split_and!; try done. by right.
      * split; [done|]. exists path. split_and!; try done. by left.
  - specialize (Hok (λ _, empty_config)).
    destruct (main args _) as [|s a]; [done|].
    destruct Hok as [-> Hself]. by split_and!.
Qed.

Lemma main_url_precedence_witness :
  main_with_file sample_args (λ _, OtherJson) = Raise TypeError ∧
  (∃ self, main_with_file sample_args
             (λ _, Reads (Parsed (sample_config "PUT" 0 10)))
           = Ok (Storm (Ok self) false) ∧
           url self = "https://127.0.0.1:8443/").
Proof.
  split; [reflexivity|].
  pose proof (main_url_precedence sample_args
                (λ _, Reads (Parsed (sample_config "PUT" 0 10)))) as H.
  destruct (main_with_file sample_args _) as [[|s a]|e] eqn:Hm;
    [discriminate Hm| |discriminate Hm].
  destruct H as (_ & -> & (self & -> & Hu) & _).
  exists self. split; [reflexivity|exact Hu].
Defined.

(** A configuration file that is missing or is not JSON changes nothing:
    [load_config] returns the empty mapping and [main] comes to what it
    comes to without [--config]. *)
Theorem main_unreadable_config args f :
  f = Missing ∨ f = Malformed →
  ∃ c, load_config f = Ok c ∧
       main args (λ _, c) = main (without_config args) (λ _, c).
Proof.
  intros Hf. exists empty_config.
  split; [by destruct Hf as [->| ->]|].
  unfold main. simpl.
  destruct (negb _); [done|].
  destruct (arg_config args) as [path|]; [|done].
  by destruct (String.eqb path "").
Qed.

Lemma main_unreadable_config_witness :
  (Missing = Missing ∨ Missing = Malformed) ∧
  ∃ c, load_config Missing = Ok c ∧
       main sample_args (λ _, c) = main (without_config sample_args) (λ _, c).
Proof.
  split; [left; reflexivity|].
  exact (main_unreadable_config sample_args Missing (or_introl eq_refl)).
Defined.



(** ** [get_random_headers] *)

Lemma choice_elem {A} (seq : list A) r x : choice seq r = Ok x → x ∈ seq.
Proof.
  unfold choice. destruct (seq !! _) as [y|] eqn:Hl; [|done].
  intros [= <-]. by eapply list_elem_of_lookup_2.
Qed.

(** What [get_random_headers] returns, by its parts. *)
Lemma get_random_headers_inv self d h :
  get_random_headers self d = Ok h →
  ∃ ua accept language connection cache,
    ua ∈ user_agents self ∧ accept ∈ accept_options ∧
    language ∈ language_options ∧
    connection ∈ ["keep-alive"; "close"] ∧
    cache ∈ ["no-cache"; "max-age=0"; "no-store"] ∧
    ∀ k,
      h !! k
      = match (if stealth self then stealth_value d k else None) with
        | Some s => Some s
        | None =>
            match headers self !! k with
            | Some v => Some v
            | None =>
                (<["Cache-Control" := cache]>
                   (<["Connection" := connection]>
                      (<["Accept-Encoding" := "gzip, deflate, br"]>
                         (<["Accept-Language" := language]>
                            (<["Accept" := accept]>
                               (<["User-Agent" := ua]> ∅)))))
                 : gmap string string) !! k
            end
        end.
Proof.
  unfold get_random_headers, res_bind.
  destruct (choice (user_agents self) _) as [ua|] eqn:Hua; [|done].
  destruct (choice accept_options _) as [accept|] eqn:Hac; [|done].
  destruct (choice language_options _) as [language|] eqn:Hla; [|done].
  destruct (choice ["keep-alive"; "close"] _) as [connection|] eqn:Hco;
    [|done].
  destruct (choice ["no-cache"; "max-age=0"; "no-store"] _) as [cache|]
    eqn:Hca; [|done].
  intros [= <-]. exists ua, accept, language, connection, cache.
  split_and!; try by eapply choice_elem.
  intros k.
  set (base := <["Cache-Control" := cache]> _).
  assert ((if bool_decide (headers self = ∅) then base
           else headers self ∪ base) !! k
          = match headers self !! k with
            | Some v => Some v
            | None => base !! k
            end) as Hcustom.
  { case_bool_decide as He.
    - by rewrite He, lookup_empty.
    - rewrite lookup_union. by destruct (headers self !! k), (base !! k). }
  destruct (stealth self).
  - rewrite stealth_headers_lookup. by destruct (stealth_value d k).
  - done.
Qed.

(** Every key of the baseline is in the headers returned, and its value is
    the operator's custom value for that key or, when there is none, one of
    the candidates: the User-Agent is never a string outside
    [self.user_agents]. *)
Theorem headers_from_candidates self d h k opts :
  get_random_headers self d = Ok h →
  (k, opts) ∈ baseline_options self →
  ∃ v, h !! k = Some v ∧
       (headers self !! k = Some v ∨ (headers self !! k = None ∧ v ∈ opts)).
Proof.
  intros Hh Hk.
  destruct (get_random_headers_inv _ _ _ Hh)
    as (ua & accept & language & connection & cache
        & Hua & Hac & Hla & Hco & Hca & Hlook).
  unfold baseline_options in Hk.
  repeat (apply elem_of_cons in Hk as [[= -> ->]|Hk]);
    [..|by apply elem_of_nil in Hk];
    rewrite Hlook;
    (replace (if stealth self then stealth_value d _ else None)
       with (@None string) by (by destruct (stealth self)));
    destruct (headers self !! _) as [v|]; eauto;
    eexists; (split; [reflexivity|]); right; split; try done.
  apply list_elem_of_singleton. done.
Qed.

Lemma headers_from_candidates_witness :
  ("User-Agent", user_agents (sample_storm "GET" 0 10))
    ∈ baseline_options (sample_storm "GET" 0 10) ∧
  ∃ h, get_random_headers (sample_storm "GET" 0 10) quiet_draws = Ok h ∧
       ∃ v, h !! "User-Agent" = Some v ∧
            (headers (sample_storm "GET" 0 10) !! "User-Agent" = Some v ∨
             (headers (sample_storm "GET" 0 10) !! "User-Agent" = None ∧
              v ∈ user_agents (sample_storm "GET" 0 10))).
Proof.
  assert (("User-Agent", user_agents (sample_storm "GET" 0 10))
            ∈ baseline_options (sample_storm "GET" 0 10)) as Hin
    by (apply elem_of_cons; left; reflexivity).
  split; [exact Hin|]. eexists. split; [reflexivity|].
  exact (headers_from_candidates (sample_storm "GET" 0 10) quiet_draws _
           "User-Agent" _ eq_refl Hin).
Defined.

Lemma stealth_value_key d k s :
  stealth_value d k = Some s → k ∈ stealth_keys.
Proof.
  unfold stealth_value, stealth_keys.
  destruct (String.eqb_spec k "DNT") as [->|_]; [set_solver|].
  destruct (String.eqb_spec k "X-Real-IP") as [->|_]; [set_solver|].
  destruct (String.eqb_spec k "X-Forwarded-For") as [->|_]; [set_solver|done].
Qed.

(** The keys of the headers returned: the six of the baseline and the
    operator's, and nothing else but the three stealth keys; with stealth
    off, exactly the six and the operator's. *)
Theorem headers_keys self d h :
  get_random_headers self d = Ok h →
  baseline_keys ∪ dom (headers self) ⊆ dom h ∧
  dom h ⊆ baseline_keys ∪ dom (headers self) ∪ stealth_keys ∧
  (stealth self = false → dom h = baseline_keys ∪ dom (headers self)).
Proof.
  intros Hh.
  destruct (get_random_headers_inv _ _ _ Hh)
    as (ua & accept & language & connection & cache & _ & _ & _ & _ & _
        & Hlook).
  set (base := (<["Cache-Control" := cache]> _ : gmap string string)) in Hlook.
  assert (dom base = baseline_keys) as Hbase.
  { subst base. unfold baseline_keys. rewrite !dom_insert_L, dom_empty_L.
    set_solver. }
  assert (∀ k, k ∈ baseline_keys ∪ dom (headers self) →
               is_Some (match headers self !! k with
                        | Some v => Some v
                        | None => base !! k
                        end)) as Hin.
  { intros k [Hk|Hk]%elem_of_union.
    - rewrite <- Hbase in Hk. apply elem_of_dom in Hk.
      by destruct (headers self !! k).
    - apply elem_of_dom in Hk as [v ->]. by eexists. }
  assert (∀ k, is_Some (match headers self !! k with
                        | Some v => Some v
                        | None => base !! k
                        end) →
               k ∈ baseline_keys ∪ dom (headers self)) as Hout.
  { intros k Hk. apply elem_of_union.
    destruct (headers self !! k) as [v|] eqn:Hc.
    - right. apply elem_of_dom. by eexists.
    - left. rewrite <- Hbase. by apply elem_of_dom. }
  split_and!.
  - intros k Hk. apply elem_of_dom. rewrite Hlook.
    destruct (if stealth self then stealth_value d k else None);
      [by eexists|by apply Hin].
  - intros k Hk. apply elem_of_dom in Hk. rewrite Hlook in Hk.
    destruct (stealth self); [|by apply elem_of_union_l, Hout].
    destruct (stealth_value d k) eqn:Hs.
    + by eapply elem_of_union_r, stealth_value_key.
    + by apply elem_of_union_l, Hout.
  - intros Hoff. apply set_eq. intros k. rewrite elem_of_dom, Hlook, Hoff.
    split; [apply Hout|apply Hin].
Qed.

Lemma headers_keys_witness :
  ∃ h, get_random_headers (sample_storm "GET" 0 10) eager_draws = Ok h ∧
       baseline_keys ∪ dom (headers (sample_storm "GET" 0 10)) ⊆ dom h ∧
       dom h ⊆ baseline_keys ∪ dom (headers (sample_storm "GET" 0 10))
               ∪ stealth_keys.
Proof.
  eexists. split; [reflexivity|].
  pose proof (headers_keys (sample_storm "GET" 0 10) eager_draws _ eq_refl)
    as (H1 & H2 & _).
  split; [exact H1|exact H2].
Defined.

(** ** One attempt *)

(** With an empty [user_agents] list no call reaches the HTTP layer: the
    [IndexError] of [random.choice] is caught by the generic handler, and
    every attempt of either mode is counted as failed under the bucket
    [IndexError]. *)
Theorem empty_user_agents_fail self now returned o :
  user_agents self = [] →
  async_worker self now returned o
  = (with_stats (count_error "IndexError" (incr_failed (incr_total (stats self))))
       self, []) ∧
  (running self = true →
   make_request self now returned o
   = {| a_self := with_stats (count_error "IndexError"
                                (incr_failed (incr_total (stats self)))) self;
        a_ret := RetError (exn_str IndexError);
        a_sent := [] |}).
Proof.
  intros Hua.
  assert (get_random_headers self (o_draws o) = Raise IndexError) as Hh.
  { unfold get_random_headers, choice. by rewrite Hua. }
  split.
  - unfold async_worker, async_worker_enter. by rewrite Hh.
  - intros Hrun. unfold make_request, make_request_enter.
    by rewrite Hrun, Hh.
Qed.

(** What [make_request_enter] returns, by its parts. *)
Lemma make_request_enter_inv self now o c :
  make_request_enter self now o = Ok c →
  ∃ hdrs proxy,
    get_random_headers self (o_draws o) = Ok hdrs ∧
    (payloads self = [] ∧ c_payload c = None ∨
     ∃ p, p ∈ payloads self ∧ c_payload c = Some p) ∧
    (proxies self = [] ∧ proxy = None ∨
     ∃ p, p ∈ proxies self ∧ proxy = Some p) ∧
    now ≤ c_start_time c ∧
    c_request c
    = (if String.eqb (upper (method self)) "GET" then
         Some {| rq_verb := "GET"; rq_url := url self; rq_headers := hdrs;
                 rq_data := None; rq_proxies := proxies_arg proxy;
                 rq_timeout := timeout self;
                 rq_verify := Some (verify_ssl self);
                 rq_at := c_start_time c |}
       else if String.eqb (upper (method self)) "POST" then
         Some {| rq_verb := "POST"; rq_url := url self; rq_headers := hdrs;
                 rq_data := Some (payload_data (c_payload c));
                 rq_proxies := proxies_arg proxy;
                 rq_timeout := timeout self;
                 rq_verify := Some (verify_ssl self);
                 rq_at := c_start_time c |}
       else None).
Proof.
  unfold make_request_enter, res_bind.
  destruct (get_random_headers self (o_draws o)) as [hdrs|]; [|done].
  assert (∀ pl, get_random_payload self (o_draws o) = Ok pl →
                payloads self = [] ∧ pl = None ∨
                ∃ p, p ∈ payloads self ∧ pl = Some p) as Hpl.
  { intros pl. unfold get_random_payload, res_bind.
    destruct (payloads self) as [|p ps] eqn:Hp; [intros [= <-]; by left|].
    destruct (choice (p :: ps) _) as [x|] eqn:Hx; [|done].
    intros [= <-]. right. exists x. split; [by eapply choice_elem|done]. }
  destruct (get_random_payload self (o_draws o)) as [pl|]; [|done].
  specialize (Hpl pl eq_refl).
  assert (∀ proxy, match proxies self with
                   | [] => Ok None
                   | _ :: _ =>
                       match choice (proxies self) (d_proxy (o_draws o)) with
                       | Ok p => Ok (Some p)
                       | Raise e => Raise e
                       end
                   end = Ok proxy →
                   proxies self = [] ∧ proxy = None ∨
                   ∃ p, p ∈ proxies self ∧ proxy = Some p) as Hpr.
  { intros proxy. destruct (proxies self) as [|p ps] eqn:Hp;
      [intros [= <-]; by left|].
    destruct (choice (p :: ps) _) as [x|] eqn:Hx; [|done].
    intros [= <-]. right. exists x. split; [by eapply choice_elem|done]. }
  match goal with
  | |- context [match ?m with Ok a => _ | Raise e => Raise e end] =>
      destruct m as [proxy|] eqn:Hproxy; [|done]
  end.
  specialize (Hpr proxy eq_refl).
  intros [= <-]. simpl. exists hdrs, proxy.
  split; [done|]. split; [done|]. split; [done|]. split; [|done].
  destruct (random_delay self); [|lia].
  pose proof (uniform_lower 10000 500000 (d_delay (o_draws o))). lia.
Qed.

Lemma proxies_arg_inv proxy p : proxies_arg proxy = Some p → proxy = Some p ∧ p ≠ "".
Proof.
  unfold proxies_arg. destruct proxy as [q|]; [|done].
  destruct (String.eqb_spec q ""); [done|]. by intros [= <-].
Qed.

(** A call [make_request] makes is built from the configuration only: it
    goes to [self.url] with [self.timeout] and [self.verify_ssl]; a proxy,
    if any, is a non-empty entry of [self.proxies]; a GET has no body and
    the body of a POST is an entry of [self.payloads], or the text [null]
    when the list is empty.  An attempt makes at most one call: nothing is
    retried. *)
Theorem make_request_call_from_config self now returned o rq :
  rq ∈ a_sent (make_request self now returned o) →
  a_sent (make_request self now returned o) = [rq] ∧
  rq_url rq = url self ∧
  rq_timeout rq = timeout self ∧
  rq_verify rq = Some (verify_ssl self) ∧
  (rq_proxies rq = None ∨
   ∃ p, p ∈ proxies self ∧ p ≠ "" ∧ rq_proxies rq = Some p) ∧
  ((rq_verb rq = "GET" ∧ rq_data rq = None) ∨
   (rq_verb rq = "POST" ∧
    ((payloads self = [] ∧ rq_data rq = Some "null") ∨
     ∃ p, p ∈ payloads self ∧ rq_data rq = Some (payload_data (Some p))))).
Proof.
  unfold make_request.
  destruct (running self); simpl; [|by intros ?%elem_of_nil].
  destruct (make_request_enter self now o) as [c|e] eqn:Hc.
  - destruct (make_request_enter_inv _ _ _ _ Hc)
      as (hdrs & proxy & _ & Hpl & Hpr & _ & Hrq).
    assert (rq ∈ sent_of c →
            sent_of c = [rq] ∧ rq_url rq = url self ∧
            rq_timeout rq = timeout self ∧
            rq_verify rq = Some (verify_ssl self) ∧
            (rq_proxies rq = None ∨
             ∃ p, p ∈ proxies self ∧ p ≠ "" ∧ rq_proxies rq = Some p) ∧
            ((rq_verb rq = "GET" ∧ rq_data rq = None) ∨
             (rq_verb rq = "POST" ∧
              ((payloads self = [] ∧ rq_data rq = Some "null") ∨
               ∃ p, p ∈ payloads self ∧
                    rq_data rq = Some (payload_data (Some p)))))) as Hsent.
    { unfold sent_of. rewrite Hrq.
      assert (proxies_arg proxy = None ∨
              ∃ p, p ∈ proxies self ∧ p ≠ "" ∧ proxies_arg proxy = Some p)
        as Hproxy.
      { destruct (proxies_arg proxy) as [p|] eqn:Hp; [|by left].
        right. apply proxies_arg_inv in Hp as [-> Hne].
        destruct Hpr as [[_ [=]]|(q & Hq & [= <-])]. by eauto. }
      destruct (String.eqb (upper (method self)) "GET");
        [|destruct (String.eqb (upper (method self)) "POST")].
      - intros ->%list_elem_of_singleton. simpl. split_and!; auto.
      - intros ->%list_elem_of_singleton. simpl. split_and!; auto.
        right. split; [done|].
        destruct Hpl as [[Hnil ->]|(p & Hp & ->)]; [by left|].
        right. by eauto.
      - by intros ?%elem_of_nil. }
    destruct (make_request_leave self c returned (o_exchange o))
      as [s1 [r|e]]; simpl; [done|].
    by destruct (make_request_except s1 e).
  - destruct (make_request_except self e). simpl. by intros ?%elem_of_nil.
Qed.

Lemma make_request_call_from_config_witness :
  ∃ rq,
    rq ∈ a_sent (make_request (sample_storm "POST" 0 10) 0 60000
                   (answer (Responded 200 7))) ∧
    a_sent (make_request (sample_storm "POST" 0 10) 0 60000
              (answer (Responded 200 7))) = [rq] ∧
    rq_url rq = url (sample_storm "POST" 0 10) ∧
    rq_verb rq = "POST" ∧
    rq_data rq = Some "abc".
Proof.
  eexists.
  assert (∀ (rq : request) l, l = [rq] → rq ∈ l) as Hin
    by (intros rq l ->; apply list_elem_of_singleton; reflexivity).
  pose proof (Hin _ _ (eq_refl : a_sent (make_request (sample_storm "POST" 0 10)
                                           0 60000 (answer (Responded 200 7)))
                                 = [_])) as Hrq.
  split; [exact Hrq|].
  pose proof (make_request_call_from_config (sample_storm "POST" 0 10) 0 60000
                (answer (Responded 200 7)) _ Hrq) as (H1 & H2 & _).
  split; [exact H1|]. split; [exact H2|]. split; reflexivity.
Defined.

(** A POST with an empty payload list is sent with the body [null]
    ([json.dumps(None)]), and [bytes_sent] does not count it. *)
Theorem post_without_payloads self now returned o status_code len :
  running self = true →
  user_agents self ≠ [] →
  upper (method self) = "POST" →
  payloads self = [] →
  o_exchange o = Responded status_code len →
  let a := make_request self now returned o in
  (∃ rq, a_sent a = [rq] ∧ rq_verb rq = "POST" ∧ rq_data rq = Some "null") ∧
  bytes_sent (stats (a_self a)) = bytes_sent (stats self).
Proof.
  intros Hrun Hua Hm Hnil Hx.
  destruct (make_request_enter_ok self now o Hua) as [c Hc].
  destruct (make_request_enter_inv _ _ _ _ Hc)
    as (hdrs & proxy & _ & Hpl & _ & _ & Hrq).
  assert (c_payload c = None) as Hnone.
  { destruct Hpl as [[_ ?]|(p & Hp & _)]; [done|].
    rewrite Hnil in Hp. by apply elem_of_nil in Hp. }
  rewrite Hm, Hnone in Hrq. simpl in Hrq.
  unfold make_request. rewrite Hrun, Hc. simpl.
  unfold make_request_leave, sent_of. rewrite Hrq, Hx, Hnone. simpl.
  split; [by eexists|]. by destruct (status_code <? 400).
Qed.

Lemma post_without_payloads_witness :
  running (cli_storm "POST" 0 10 2) = true ∧
  user_agents (cli_storm "POST" 0 10 2) ≠ [] ∧
  upper (method (cli_storm "POST" 0 10 2)) = "POST" ∧
  payloads (cli_storm "POST" 0 10 2) = [] ∧
  (∃ rq, a_sent (make_request (cli_storm "POST" 0 10 2) 0 60000
                   (answer (Responded 200 7))) = [rq] ∧
         rq_verb rq = "POST" ∧ rq_data rq = Some "null") ∧
  bytes_sent (stats (a_self (make_request (cli_storm "POST" 0 10 2) 0 60000
                               (answer (Responded 200 7)))))
  = bytes_sent (stats (cli_storm "POST" 0 10 2)).
Proof.
  assert (user_agents (cli_storm "POST" 0 10 2) ≠ []) as Hua by discriminate.
  split; [reflexivity|]. split; [exact Hua|]. split; [reflexivity|].
  split; [reflexivity|].
  exact (post_without_payloads (cli_storm "POST" 0 10 2) 0 60000
           (answer (Responded 200 7)) 200 7%nat
           eq_refl Hua eq_refl eq_refl eq_refl).
Defined.

Lemma empty_user_agents_fail_witness :
  user_agents agentless_storm = [] ∧
  async_worker agentless_storm 0 1 (answer (Responded 200 7))
  = (with_stats (count_error "IndexError"
                   (incr_failed (incr_total (stats agentless_storm))))
       agentless_storm, []).
Proof.
  split; [reflexivity|].
  exact (proj1 (empty_user_agents_fail agentless_storm 0 1
                  (answer (Responded 200 7)) eq_refl)).
Defined.

(** ** The counters *)

Lemma perform_ordered self op :
  counters_ordered (stats self) → counters_ordered (stats (perform self op)).
Proof.
  unfold counters_ordered, perform, make_request, make_request_leave,
    make_request_except, record_response, async_worker, async_worker_leave,
    async_worker_except.
  intros (?&?&?&?&?&?).
  repeat (case_match; simplify_eq; simpl in * );
    rewrite ?length_app; simpl; lia.
Qed.

(** Whatever the method, the mode and the outcomes are, the counters keep
    their order: no counter is negative, a timeout is a failure, a success
    has a response time, and [successful + failed] never exceeds
    [total_requests]. *)
Theorem counters_stay_ordered ops : ∀ self,
  counters_ordered (stats self) →
  counters_ordered (stats (foldl perform self ops)).
Proof.
  induction ops as [|op ops IH]; intros self H; simpl; [done|].
  by apply IH, perform_ordered.
Qed.

Lemma counters_stay_ordered_witness :
  counters_ordered (stats (sample_storm "PUT" 0 10)) ∧
  counters_ordered
    (stats (foldl perform (sample_storm "PUT" 0 10)
              [MakeRequest 0 60000 (answer (Responded 200 7));
               AsyncWorker 0 60000 (answer (Failed asyncio_TimeoutError));
               MakeRequest 0 60000 (answer (Failed requests_ReadTimeout))])).
Proof.
  assert (counters_ordered (stats (sample_storm "PUT" 0 10))) as H0
    by (unfold counters_ordered; simpl; lia).
  split; [exact H0|].
  exact (counters_stay_ordered _ (sample_storm "PUT" 0 10) H0).
Defined.

(** ** The stop flag *)




(** ** The thread pool on any schedule *)

Section PoolRunInvariant.
Variable P : pool → Prop.
Hypothesis P_step : ∀ p t i o, P p → P (pool_step p t i o).



End PoolRunInvariant.

Lemma pool_step_length p t i o :
  length (p_workers (pool_step p t i o)) = length (p_workers p).
Proof.
  unfold pool_step. destruct (p_workers p !! i) as [w|]; [|done].
  destruct (worker_thread_step (p_self p) w t o) as [[s1 w1] rqs]. simpl.
  by rewrite length_insert.
Qed.




(** ** How far the ceiling can be passed *)

Lemma count_insert {A} (f : A → bool) (l : list A) : ∀ i x y,
  l !! i = Some x →
  Z.of_nat (length (filter (λ a, f a = true) (<[i:=y]> l)))
  = Z.of_nat (length (filter (λ a, f a = true) l))
    - Z.b2z (f x) + Z.b2z (f y).
Proof.
  induction l as [|a l IH]; intros i x y Hi; [done|].
  destruct i as [|i]; simpl in *.
  - injection Hi as ->. rewrite !filter_cons.
    destruct (f x), (f y); repeat case_decide; simpl; try done; lia.
  - rewrite !filter_cons. specialize (IH i x y Hi).
    case_decide; simpl; lia.
Qed.

Lemma count_le_length {A} (f : A → bool) (l : list A) :
  (length (filter (λ a, f a = true) l) ≤ length l)%nat.
Proof.
  induction l as [|a l IH]; [done|].
  rewrite filter_cons. case_decide; simpl; lia.
Qed.

(** One step of a worker with a supported method and a positive ceiling:
    either the attempts counted and under way do not grow, or the worker
    has just passed the loop test, below the ceiling. *)
Lemma worker_thread_step_overshoot self w t o self' w' rqs :
  method_supported self = true →
  0 < requests self →
  (∀ c, w_pc w = Delayed c ∨ w_pc w = Called c → is_Some (c_request c)) →
  worker_thread_step self w t o = (self', w', rqs) →
  (∀ c, w_pc w' = Delayed c ∨ w_pc w' = Called c → is_Some (c_request c)) ∧
  (total_requests (stats self') + Z.b2z (in_flight w')
   ≤ total_requests (stats self) + Z.b2z (in_flight w) ∨
   (in_flight w = false ∧ in_flight w' = true ∧
    total_requests (stats self') = total_requests (stats self) ∧
    total_requests (stats self) < requests self)).
Proof.
  intros Hm Hn Hcalled. unfold worker_thread_step, in_flight.
  destruct (w_pc w) as [| |c|c|] eqn:Hpc.
  - destruct (worker_continues self) eqn:Hgo; intros [= <- <- <-]; simpl.
    + split; [by intros c [?|?]|]. right. split_and!; try done.
      unfold worker_continues in Hgo.
      apply andb_true_iff in Hgo as [_ Hgo].
      apply negb_true_iff, andb_false_iff in Hgo as [Hgo|Hgo]; lia.
    + split; [by intros c [?|?]|]. left. lia.
  - destruct (running self); simpl.
    + destruct (make_request_enter self t o) as [c|e] eqn:Hc;
        intros [= <- <- <-]; simpl.
      * split; [|left; lia]. intros c' [[= <-]|[=]].
        destruct (make_request_enter_request _ _ _ _ Hm Hc) as (rq & -> & _).
        by eexists.
      * split; [by intros c [?|?]|]. left.
        destruct (make_request_except_counted self e) as [-> _]. lia.
    + intros [= <- <- <-]. simpl. split; [by intros c [?|?]|]. left. lia.
  - intros [= <- <- <-]. simpl. split; [|left; lia].
    intros c' [[=]|[= <-]]. apply Hcalled. by left.
  - destruct (Hcalled c (or_intror eq_refl)) as [rq Hrq].
    unfold make_request_leave. rewrite Hrq.
    destruct (o_exchange o) as [status_code len|e]; simpl.
    + intros [= <- <- <-]. simpl. split; [by intros c' [?|?]|]. left.
      destruct (payload_truthy (c_payload c)), (status_code <? 400); simpl;
        lia.
    + intros [= <- <- <-]. simpl. split; [by intros c' [?|?]|]. left.
      destruct (make_request_except_counted self e) as [-> _]. lia.
  - intros [= <- <- <-]. rewrite Hpc. split; [by intros c [?|?]|]. left. lia.
Qed.

Lemma pool_step_within_overshoot n p t i o :
  0 < n →
  pool_within_overshoot n p → pool_within_overshoot n (pool_step p t i o).
Proof.
  unfold pool_within_overshoot, pool_step, in_flight_count.
  intros Hn (Hm & Hreq & Hsum & Hcalled).
  destruct (p_workers p !! i) as [w|] eqn:Hw; [|done].
  destruct (worker_thread_step (p_self p) w t o) as [[self' w'] rqs] eqn:Hs.
  pose proof (worker_thread_step_facts _ _ _ _ _ _ _ Hs) as (Hfr & _ & _).
  apply worker_thread_step_overshoot in Hs as (Hcalled' & Hcount);
    [|done|lia|by eauto].
  simpl. split; [by rewrite Hfr|]. split; [by rewrite Hfr|].
  rewrite length_insert.
  pose proof (count_insert in_flight (p_workers p) i w w' Hw) as Hins.
  pose proof (count_le_length in_flight (<[i:=w']> (p_workers p))) as Hle.
  rewrite length_insert in Hle.
  split.
  - destruct Hcount as [Hcount|(Hw0 & Hw1 & Htot & Hbelow)].
    + lia.
    + rewrite Hw0, Hw1 in Hins. simpl in Hins. lia.
  - intros j v c Hj Hv.
    destruct (decide (i = j)) as [->|Hne].
    + rewrite list_lookup_insert_eq in Hj by (by eapply lookup_lt_Some).
      injection Hj as ->. by eapply Hcalled'.
    + rewrite list_lookup_insert_ne in Hj by done. by eapply Hcalled.
Qed.

Lemma in_flight_count_start k :
  in_flight_count (replicate k worker_start) = 0%nat.
Proof.
  unfold in_flight_count. induction k as [|k IH]; [done|].
  simpl. rewrite filter_cons. case_decide as H; [done|exact IH].
Qed.

(** In the request-limited multi-thread mode with GET or POST, from fresh
    statistics, the attempts counted never exceed the ceiling by more than
    the number of threads minus one: a thread tests the ceiling only
    between two attempts. *)
Theorem thread_overshoot_bounded self t0 evs r :
  0 < requests self →
  method_supported self = true →
  total_requests (stats self) = 0 →
  start_storm self false t0 evs = Some (Ok r) →
  total_requests (stats (r_self r))
  ≤ requests self - 1 + Z.max 0 (threads self).
Proof.
  intros Hn Hm Hz. unfold start_storm, dispatch. simpl.
  destruct (Z.gtb_spec (requests self) 0); [|lia].
  set (self0 := with_stats (set_start_time t0 (stats self)) self).
  destruct (join_all (spawn_workers self0) t0 evs) as [[[p now] how]|]
    eqn:Hjoin; [|done].
  assert (pool_within_overshoot (requests self) p
          ∧ length (p_workers p) = Z.to_nat (threads self)) as [Hp Hlen].
  { eapply (join_all_invariant
              (λ p, pool_within_overshoot (requests self) p
                    ∧ length (p_workers p) = Z.to_nat (threads self)));
      [| |exact Hjoin].
    - intros p0 t i o [H1 H2]. split.
      + by apply pool_step_within_overshoot.
      + by rewrite pool_step_length.
    - unfold pool_within_overshoot, spawn_workers. simpl.
      rewrite length_replicate. split; [|done].
      split; [done|]. split; [done|]. split.
      + rewrite Hz, in_flight_count_start. simpl. lia.
      + intros i w c Hw Hc. apply lookup_replicate in Hw as [-> _].
        by destruct Hc. }
  destruct Hp as (_ & _ & Hsum & _). rewrite Hlen in Hsum.
  destruct (print_final_report _ now); [|done].
  intros [= <-]. simpl. lia.
Qed.

Lemma thread_overshoot_bounded_witness :
  0 < requests (sample_storm "GET" 2 10) ∧
  method_supported (sample_storm "GET" 2 10) = true ∧
  total_requests (stats (sample_storm "GET" 2 10)) = 0 ∧
  ∃ r, start_storm (sample_storm "GET" 2 10) false 0 sample_thread_schedule
       = Some (Ok r) ∧
       total_requests (stats (r_self r)) = 3 ∧
       total_requests (stats (r_self r))
       ≤ requests (sample_storm "GET" 2 10) - 1
         + Z.max 0 (threads (sample_storm "GET" 2 10)).
Proof.
  assert (0 < requests (sample_storm "GET" 2 10)) as H1 by (simpl; lia).
  split; [exact H1|]. split; [reflexivity|]. split; [reflexivity|].
  eexists. split; [vm_compute; reflexivity|]. split; [reflexivity|].
  refine (thread_overshoot_bounded (sample_storm "GET" 2 10) 0
            sample_thread_schedule _ H1 eq_refl eq_refl _).
  vm_compute. reflexivity.
Defined.

(** ** The bounds of the cooperative loop *)

Lemma async_task_step_frame l t i o :
  l_self (async_task_step l t i o)
  = with_stats (stats (l_self (async_task_step l t i o))) (l_self l).
Proof.
  unfold async_task_step.
  destruct (l_created l !! i) as [[|c|]|]; try by rewrite with_stats_stats.
  - destruct (semaphore_free l); [|by rewrite with_stats_stats].
    destruct (async_worker_enter (l_self l) t o);
      simpl; by rewrite ?with_stats_stats.
  - simpl.
    pose proof (async_worker_leave_frame (l_self l) c t (o_exchange o)) as Hfr.
    destruct (async_worker_leave (l_self l) c t (o_exchange o)) as [s1 [r|e]];
      simpl in *; [done|]. by rewrite Hfr.
Qed.

Lemma async_task_step_within_bounds n l t i o :
  aloop_within_bounds n l → aloop_within_bounds n (async_task_step l t i o).
Proof.
  unfold aloop_within_bounds. intros (Hn & Hfly & Htasks).
  split; [by rewrite async_task_step_frame|].
  unfold async_task_step, flying_count in *.
  destruct (l_created l !! i) as [[|c|]|] eqn:Hi; try done.
  - destruct (semaphore_free l) eqn:Hfree; [|done].
    unfold semaphore_free in Hfree. apply Z.ltb_lt in Hfree.
    destruct (async_worker_enter (l_self l) t o); simpl;
      (split; [|done]);
      rewrite (count_insert is_flying (l_created l) i Waiting _ Hi);
      simpl; lia.
  - simpl. split; [|done].
    rewrite (count_insert is_flying (l_created l) i (Flying c) _ Hi).
    simpl. lia.
Qed.

Lemma async_storm_turn_within_bounds n l l' :
  aloop_within_bounds n l → async_storm_turn l = Some l' →
  aloop_within_bounds n l'.
Proof.
  unfold aloop_within_bounds, async_storm_turn, flying_count.
  intros (Hn & Hfly & Htasks).
  destruct (worker_continues (l_self l)); [|done].
  intros [= <-]. rewrite Hn.
  destruct (Z.ltb_spec (Z.of_nat (length (l_tasks l))) (n * 20)); simpl.
  - split; [done|]. split.
    + rewrite filter_app, length_app. simpl. lia.
    + match goal with
      | |- Z.of_nat (length (filter ?Q ?l0)) ≤ _ =>
          pose proof (length_filter Q l0) as Hle
      end.
      rewrite length_app in Hle. simpl in Hle. lia.
  - split; [done|]. split; [done|].
    match goal with
    | |- Z.of_nat (length (filter ?Q ?l0)) ≤ _ =>
        pose proof (length_filter Q l0) as Hle
    end.
    lia.
Qed.

(** In the cooperative mode no more than [self.threads] tasks hold the
    semaphore, so no more than that many requests are under way, and the
    list [tasks] holds no more than twenty times [self.threads] tasks,
    wherever the run is interrupted or left. *)
Theorem async_storm_bounds deadline self evs l now how :
  async_storm deadline self evs = Some (Ok (l, now, how)) →
  0 ≤ threads self ∧
  Z.of_nat (flying_count l) ≤ threads self ∧
  Z.of_nat (length (l_tasks l)) ≤ threads self * 20.
Proof.
  unfold async_storm.
  destruct (Z.ltb_spec (threads self) 0); [done|].
  destruct (async_loop _ _ evs) as [[[l' now'] how']|] eqn:Hloop; [|done].
  intros [= -> -> ->].
  assert (aloop_within_bounds (threads self) l) as (_ & Hfly & Htasks).
  { eapply (async_loop_invariant deadline
              (aloop_within_bounds (threads self))); [| | | |exact Hloop].
    - apply async_task_step_within_bounds.
    - apply async_storm_turn_within_bounds.
    - by intros l0 _ (?&?&?).
    - unfold aloop_within_bounds, flying_count. simpl. lia. }
  lia.
Qed.

Lemma async_storm_bounds_witness :
  ∃ l now how,
    async_storm None (sample_storm "GET" 5 10) interrupted_schedule
    = Some (Ok (l, now, how)) ∧
    flying_count l = 2%nat ∧
    Z.of_nat (flying_count l) ≤ threads (sample_storm "GET" 5 10) ∧
    Z.of_nat (length (l_tasks l)) ≤ threads (sample_storm "GET" 5 10) * 20.
Proof.
  eexists _, _, _. split; [vm_compute; reflexivity|].
  split; [reflexivity|].
  refine (proj2 (async_storm_bounds None (sample_storm "GET" 5 10)
                   interrupted_schedule _ 7 KeyboardInterrupt _)).
  vm_compute. reflexivity.
Defined.

(** ** The end of a duration-limited cooperative run *)

Lemma async_task_step_stopped l t i o :
  running (l_self l) = false → running (l_self (async_task_step l t i o)) = false.
Proof. intros H. by rewrite async_task_step_frame. Qed.

(** With the flag down the loop is left at its next turn, whatever the
    tasks do before. *)
Lemma async_loop_stopped deadline t post : ∀ mid l,
  running (l_self l) = false →
  ∃ l' now how,
    async_loop deadline l (mid ++ Turn t :: post) = Some (l', now, how) ∧
    running (l_self l') = false.
Proof.
  induction mid as [|e mid IH]; intros l Hrun; simpl.
  - unfold async_storm_turn, worker_continues. rewrite Hrun. simpl.
    by eexists _, _, _.
  - destruct e as [t' i o|t'|t'|t'].
    + by apply IH, async_task_step_stopped.
    + unfold async_storm_turn, worker_continues. rewrite Hrun. simpl.
      by eexists _, _, _.
    + apply IH. unfold stop_storm. destruct deadline as [dl|]; [|done].
      by destruct (dl <=? t').
    + by eexists _, _, _.
Qed.

Lemma async_loop_ends deadline t t' post mid : ∀ pre l,
  deadline ≤ t →
  ∃ l' now how,
    async_loop (Some deadline) l (pre ++ Wake t :: mid ++ Turn t' :: post)
    = Some (l', now, how) ∧
    (how = Returned → worker_continues (l_self l') = false).
Proof.
  induction pre as [|e pre IH]; intros l Hdl; simpl.
  - destruct (Z.leb_spec deadline t); [|lia].
    destruct (async_loop_stopped (Some deadline) t' post mid
                (aloop_set_running false l) eq_refl)
      as (l' & now & how & -> & Hrun).
    eexists _, _, _. split; [reflexivity|]. intros _.
    unfold worker_continues. by rewrite Hrun.
  - destruct e as [t1 i o|t1|t1|t1]; simpl.
    + by apply IH.
    + destruct (async_storm_turn _) as [l1|] eqn:Hturn; [by apply IH|].
      eexists _, _, _. split; [reflexivity|]. intros _.
      revert Hturn. unfold async_storm_turn.
      by destruct (worker_continues _).
    + by apply IH.
    + eexists _, _, _. split; [reflexivity|]. done.
Qed.

(** In a duration-limited run of the cooperative mode, once the
    [stop_storm] thread has woken from its sleep (at the deadline or
    later), the dispatch is left, with the flag down, by the next turn of
    the [async_storm] loop, whatever the tasks do in between. *)
Theorem async_duration_run_ends self t0 pre t mid t' post :
  requests self ≤ 0 →
  0 ≤ duration self →
  0 ≤ threads self →
  t0 + seconds (duration self) ≤ t →
  ∃ s1 sent now how,
    dispatch self true t0 (pre ++ Wake t :: mid ++ Turn t' :: post)
    = Some (Ok (s1, sent, now, how)) ∧
    running s1 = false.
Proof.
  intros Hn Hd Hth Ht.
  unfold dispatch, async_storm.
  destruct (Z.gtb_spec (requests self) 0); [lia|].
  destruct (Z.ltb_spec (duration self) 0); [lia|].
  destruct (Z.ltb_spec (threads self) 0); [lia|].
  destruct (async_loop_ends (t0 + seconds (duration self)) t t' post mid pre
              {| l_self := self; l_created := []; l_tasks := [];
                 l_sent := [] |} Ht) as (l' & now & how & Hloop & Hstop).
  rewrite Hloop.
  pose proof (async_loop_invariant (Some (t0 + seconds (duration self)))
                (λ l, requests (l_self l) = requests self)) as Hinv.
  assert (requests (l_self l') = requests self) as Hreq.
  { eapply Hinv; [| | | |exact Hloop]; try done.
    - intros l0 t1 i o Hq. by rewrite async_task_step_frame.
    - intros l0 l1 Hq. unfold async_storm_turn.
      destruct (worker_continues (l_self l0)); [|done]. intros [= <-].
      simpl. by destruct (_ <? _). }
  destruct how.
  - eexists _, _, _, _. split; [reflexivity|].
    specialize (Hstop eq_refl). unfold worker_continues in Hstop.
    destruct (running (l_self l')); [|done]. simpl in Hstop.
    apply negb_false_iff, andb_true_iff in Hstop as [Hpos _]. lia.
  - eexists _, _, _, _. split; [reflexivity|done].
Qed.

Lemma async_duration_run_ends_witness :
  requests (sample_storm "GET" 0 1) ≤ 0 ∧
  0 ≤ duration (sample_storm "GET" 0 1) ∧
  0 ≤ threads (sample_storm "GET" 0 1) ∧
  0 + seconds (duration (sample_storm "GET" 0 1)) ≤ 1002000 ∧
  stopped_schedule
  = [Turn 1; Step 2 0 (answer (Responded 200 7)); Turn 3;
     Step 40000 0 (answer (Responded 200 7)); Turn 40001;
     Step 960000 1 (answer (Responded 200 7))]
    ++ Wake 1002000 :: [Step 1002500 1 (answer (Responded 200 7))]
    ++ Turn 1003000 :: [] ∧
  ∃ s1 sent now how,
    dispatch (sample_storm "GET" 0 1) true 0 stopped_schedule
    = Some (Ok (s1, sent, now, how)) ∧
    running s1 = false.
Proof.
  assert (requests (sample_storm "GET" 0 1) ≤ 0) as H1 by (simpl; lia).
  assert (0 ≤ duration (sample_storm "GET" 0 1)) as H2 by (simpl; lia).
  assert (0 ≤ threads (sample_storm "GET" 0 1)) as H3 by (simpl; lia).
  assert (0 + seconds (duration (sample_storm "GET" 0 1)) ≤ 1002000) as H4
    by (unfold seconds; simpl; lia).
  split; [exact H1|]. split; [exact H2|]. split; [exact H3|].
  split; [exact H4|]. split; [reflexivity|].
  exact (async_duration_run_ends (sample_storm "GET" 0 1) 0
           [Turn 1; Step 2 0 (answer (Responded 200 7)); Turn 3;
            Step 40000 0 (answer (Responded 200 7)); Turn 40001;
            Step 960000 1 (answer (Responded 200 7))]
           1002000 [Step 1002500 1 (answer (Responded 200 7))] 1003000 []
           H1 H2 H3 H4).
Defined.

(** ** Failures in [make_request] *)

(** An exchange that fails in [make_request] is counted once, as a failure,
    and records no response time.  A [requests] timeout is counted as a
    timeout as well and goes into no error bucket; any other exception goes
    into the bucket of its class name and is not counted as a timeout. *)
Theorem make_request_failure_kinds self now returned o c rq e :
  running self = true →
  make_request_enter self now o = Ok c →
  c_request c = Some rq →
  o_exchange o = Failed e →
  let a := make_request self now returned o in
  let st := stats self in
  let st' := stats (a_self a) in
  a_sent a = [rq] ∧
  total_requests st' = total_requests st + 1 ∧
  failed st' = failed st + 1 ∧
  successful st' = successful st ∧
  response_times st' = response_times st ∧
  status_codes st' = status_codes st ∧
  (if exn_requests_timeout e
   then a_ret a = RetTimeout ∧ timeouts st' = timeouts st + 1 ∧
        errors st' = errors st
   else a_ret a = RetError (exn_str e) ∧ timeouts st' = timeouts st ∧
        errors st' = count_key (exn_name e) (errors st)).
Proof.
  intros Hrun Hc Hrq Hx. unfold make_request.
  rewrite Hrun, Hc. simpl. unfold make_request_leave, sent_of.
  rewrite Hrq, Hx. unfold make_request_except.
  by destruct (exn_requests_timeout e).
Qed.

Lemma make_request_failure_kinds_witness :
  running (sample_storm "GET" 0 10) = true ∧
  o_exchange (answer (Failed requests_ReadTimeout))
  = Failed requests_ReadTimeout ∧
  a_ret (make_request (sample_storm "GET" 0 10) 0 10000000
           (answer (Failed requests_ReadTimeout))) = RetTimeout ∧
  timeouts (stats (a_self (make_request (sample_storm "GET" 0 10) 0 10000000
                             (answer (Failed requests_ReadTimeout))))) = 1.
Proof.
  split; [reflexivity|]. split; [reflexivity|].
  pose proof (make_request_failure_kinds (sample_storm "GET" 0 10) 0 10000000
                (answer (Failed requests_ReadTimeout)) _ _
                requests_ReadTimeout eq_refl eq_refl eq_refl eq_refl)
    as (_ & _ & _ & _ & _ & _ & Hret & Hto & _).
  split; [exact Hret|exact Hto].
Defined.

Lemma operations_partition_witness :
  running (sample_storm "POST" 0 10) = true ∧
  method_supported (sample_storm "POST" 0 10) = true ∧
  total_requests
    (stats (foldl perform (sample_storm "POST" 0 10)
              [MakeRequest 0 60000 (answer (Responded 200 7));
               AsyncWorker 0 60000 (answer (Failed asyncio_TimeoutError));
               MakeRequest 0 60000 (answer (Failed requests_ReadTimeout))]))
  = 0 + 3.
Proof.
  split; [reflexivity|]. split; [reflexivity|].
  exact (proj1 (operations_partition
                  [MakeRequest 0 60000 (answer (Responded 200 7));
                   AsyncWorker 0 60000 (answer (Failed asyncio_TimeoutError));
                   MakeRequest 0 60000 (answer (Failed requests_ReadTimeout))]
                  (sample_storm "POST" 0 10) eq_refl eq_refl)).
Defined.

Lemma make_request_response_time_witness :
  running (sample_storm "GET" 0 10) = true ∧
  o_exchange (answer (Responded 200 7)) = Responded 200 7 ∧
  ∃ rq, a_sent (make_request (sample_storm "GET" 0 10) 0 60000
                  (answer (Responded 200 7))) = [rq] ∧
        rq_at rq = 10000 ∧
        response_times (stats (a_self (make_request (sample_storm "GET" 0 10)
                                         0 60000 (answer (Responded 200 7)))))
        = response_times (stats (sample_storm "GET" 0 10))
          ++ [60000 - rq_at rq].
Proof.
  split; [reflexivity|]. split; [reflexivity|].
  eexists. split; [reflexivity|]. split; [reflexivity|].
  exact (make_request_response_time (sample_storm "GET" 0 10) 0 60000
           (answer (Responded 200 7)) _ _ 200 7%nat
           eq_refl eq_refl eq_refl eq_refl).
Defined.
